(** * fireBaseStorage.py: a client for one Firebase storage bucket

    A shallow embedding of [FireBaseStorageClient] (src/fireBaseStorage.py)
    and the properties of its three operations, [upload_file],
    [download_file] and [delete_file], with the helpers [_archive_file] and
    [_extract].

    What the program gets from its libraries is modelled next to it, from
    the libraries' behaviour on a POSIX host:
    - text is a [string] of characters with code points 0..255;
    - [posixpath] ([os.path.split], [os.path.join], [os.path.basename],
      [os.path.normpath]);
    - [re.sub] for the one pattern the program uses;
    - the local disk is a finite map from path strings to nodes, compared as
      strings: two spellings of a path are two entries, and a path that
      ends with a slash is a spelling like any other. A directory is there
      when it is an entry, when an entry is recorded below it, or when it
      is the working directory or the root; a new entry needs its
      directory to be there;
    - a [tarfile] archive is a file whose content is a list of members;
    - the bucket is a finite map from keys to contents; [net] is the
      exception, if any, with which the SDK gives a request up, after
      whatever attempts its retry policy makes, and [sent] has one entry
      for each request, however often it was tried. *)

From Stdlib Require Import ZArith Ascii String.
From stdpp Require Import gmap strings list fin_maps.

Local Open Scope string_scope.

#[local] Arguments String.append !s1 s2.

(** ** Characters and text *)

Definition newline : ascii := Ascii.ascii_of_nat 10.
Definition sep : ascii := Ascii.ascii_of_nat 47.

Definition between (lo hi n : nat) : bool := (lo <=? n)%nat && (n <=? hi)%nat.

(** [\w] of a [str] pattern: letters, digits (decimal or numeric) and the
    underscore; the second line is what Unicode adds between 128 and 255. *)
Definition is_word (c : ascii) : bool :=
  let n := Ascii.nat_of_ascii c in
  between 48 57 n || between 65 90 n || between 97 122 n || (n =? 95)%nat
  || (n =? 170)%nat || between 178 179 n || (n =? 181)%nat
  || between 185 186 n || between 188 190 n
  || between 192 214 n || between 216 246 n || between 248 255 n.

Definition is_newline (c : ascii) : bool := Ascii.eqb c newline.
Definition is_sep (c : ascii) : bool := Ascii.eqb c sep.

Definition str_empty (s : string) : bool :=
  match s with EmptyString => true | String _ _ => false end.

Fixpoint str_take (n : nat) (s : string) : string :=
  match n, s with
  | S n', String c s' => String c (str_take n' s')
  | _, _ => EmptyString
  end.

Fixpoint str_drop (n : nat) (s : string) : string :=
  match n, s with
  | S n', String _ s' => str_drop n' s'
  | _, _ => s
  end.

(** [s.rfind("/")], [None] for Python's -1. *)
Fixpoint rfind_sep (s : string) : option nat :=
  match s with
  | EmptyString => None
  | String c s' =>
      match rfind_sep s' with
      | Some k => Some (S k)
      | None => if is_sep c then Some 0%nat else None
      end
  end.

(** [s == "/" * len(s)] *)
Fixpoint all_sep (s : string) : bool :=
  match s with
  | EmptyString => true
  | String c s' => is_sep c && all_sep s'
  end.

(** [s.rstrip("/")] *)
Fixpoint rstrip_sep (s : string) : string :=
  match s with
  | EmptyString => EmptyString
  | String c s' =>
      let r := rstrip_sep s' in
      if str_empty r && is_sep c then EmptyString else String c r
  end.

(** [s.lstrip("/")] *)
Fixpoint lstrip_sep (s : string) : string :=
  match s with
  | String c s' => if is_sep c then lstrip_sep s' else s
  | EmptyString => EmptyString
  end.

(** [s.split("/")] *)
Fixpoint str_split_sep (s : string) : list string :=
  match s with
  | EmptyString => [EmptyString]
  | String c s' =>
      if is_sep c then EmptyString :: str_split_sep s'
      else match str_split_sep s' with
           | x :: xs => String c x :: xs
           | [] => [String c EmptyString]
           end
  end.

(** ["/".join(comps)] *)
Fixpoint str_join_sep (comps : list string) : string :=
  match comps with
  | [] => EmptyString
  | [x] => x
  | x :: xs => x +:+ String sep (str_join_sep xs)
  end.

(** ["/" * n] *)
Fixpoint str_seps (n : nat) : string :=
  match n with
  | O => EmptyString
  | S n' => String sep (str_seps n')
  end.

Definition startswith_sep (s : string) : bool :=
  match s with String c _ => is_sep c | EmptyString => false end.

Fixpoint endswith_sep (s : string) : bool :=
  match s with
  | EmptyString => false
  | String c EmptyString => is_sep c
  | String _ s' => endswith_sep s'
  end.

(** ** posixpath *)

Module posixpath.

(** [i = p.rfind(sep) + 1] *)
Definition cut (p : string) : nat :=
  match rfind_sep p with Some k => S k | None => 0%nat end.

(** [os.path.split]: head and tail around the last slash; the head loses
    its trailing slashes unless it is made of slashes only. *)
Definition split (p : string) : string * string :=
  let i := cut p in
  let head := str_take i p in
  let tail := str_drop i p in
  let head :=
    if negb (str_empty head) && negb (all_sep head)
    then rstrip_sep head else head in
  (head, tail).

(** [os.path.basename] *)
Definition basename (p : string) : string := str_drop (cut p) p.

(** [os.path.join] of two components. *)
Definition join (a b : string) : string :=
  if startswith_sep b then b
  else if str_empty a || endswith_sep a then a +:+ b
  else a +:+ String sep b.

(** The number [os.path.normpath] keeps of the slashes a path starts with:
    two when there are exactly two, else one, or none. *)
Definition initial_slashes (p : string) : nat :=
  if startswith_sep p
  then if String.prefix "//" p && negb (String.prefix "///" p) then 2%nat else 1%nat
  else 0%nat.

(** One component taken by [normpath]: empty and [.] components are
    dropped, [..] takes the component before it away unless there is none
    to take. *)
Definition norm_step (rooted : bool) (new_comps : list string) (comp : string)
  : list string :=
  if str_empty comp || bool_decide (comp = ".") then new_comps
  else if negb (bool_decide (comp = ".."))
          || (negb rooted && bool_decide (new_comps = []))
          || bool_decide (last new_comps = Some "..")
       then new_comps ++ [comp]
       else removelast new_comps.

(** [os.path.normpath] *)
Definition normpath (p : string) : string :=
  if str_empty p then "."
  else
    let n := initial_slashes p in
    let comps :=
      fold_left (norm_step (negb (n =? 0)%nat)) (str_split_sep p) [] in
    let path := str_seps n +:+ str_join_sep comps in
    if str_empty path then "." else path.

End posixpath.

(** ** The pattern [.\w+$] and [re.sub] *)

Module re.

(** The longest run of word characters at the start, and what follows. *)
Fixpoint word_span (s : string) : string * string :=
  match s with
  | String c s' =>
      if is_word c
      then let '(w, r) := word_span s' in (String c w, r)
      else (EmptyString, s)
  | EmptyString => (EmptyString, EmptyString)
  end.

(** [$]: at the end of the text, or before a newline that ends it. *)
Definition at_end (s : string) : bool :=
  match s with
  | EmptyString => true
  | String c EmptyString => is_newline c
  | _ => false
  end.

(** The pattern tried at the start of [s]: one character that is not a
    newline, then word characters, as many as there are (with fewer the
    next character is a word character and [$] fails), then [$].
    Gives the matched text and the rest. *)
Definition match_here (s : string) : option (string * string) :=
  match s with
  | EmptyString => None
  | String c s' =>
      if is_newline c then None
      else
        let '(w, r) := word_span s' in
        if str_empty w then None
        else if at_end r then Some (String c w, r) else None
  end.

(** [re.sub(r'.\w+$', repl, s)]: the text is scanned from the left and a
    match is replaced; the scan goes on after it. What is left after a
    match is empty or one newline and holds no further match
    ([sub_rest]), so it is copied. *)
Fixpoint sub (repl s : string) : string :=
  match s with
  | EmptyString => EmptyString
  | String c s' =>
      match match_here s with
      | Some (_, rest) => repl +:+ rest
      | None => String c (sub repl s')
      end
  end.

(** Whether the pattern matches somewhere in [s] ([re.search]). *)
Fixpoint search (s : string) : bool :=
  match s with
  | EmptyString => false
  | String _ s' =>
      match match_here s with
      | Some _ => true
      | None => search s'
      end
  end.

End re.

(** ** Files, archives and failures *)

(** What a regular file holds: bytes that are no archive, or a gzip tar
    archive, written at some compression level, with its members in order.
    A member is a regular file with its content, or a directory. *)
Inductive content :=
| Raw (bytes : string)
| TarGz (compresslevel : Z) (members : list (string * entry))
with entry :=
| RegEntry (data : content)
| DirEntry.

Inductive node :=
| File (c : content)
| Dir.

(** The exceptions that reach the caller. [FileNotFoundError] is Python's
    class, raised by the host with an errno text and by this module with
    its own messages; [ReadError] is [tarfile]'s, its text standing for the
    library's, which tells what each way of opening the file found;
    [NotFound] is [google.api_core.exceptions.NotFound]; [TransportError]
    stands for any other failure of the service or of the connection. *)
Inductive exn :=
| FileNotFoundError (msg : string)
| IsADirectoryError (path : string)
| NotADirectoryError (path : string)
| FileExistsError (path : string)
| ValueError (msg : string)
| ReadError (msg : string)
| NotFound (msg : string)
| TransportError (msg : string).

Definition ENOENT (path : string) : exn :=
  FileNotFoundError ("[Errno 2] No such file or directory: '" +:+ path +:+ "'").

(** *** Directories

    The disk records entries, not the directories above them. [d] is above
    [k] when [d] is the head of [k], or of the head of [k], and so on; the
    length of [k] is fuel enough ([is_ancestor_fuel]). *)
Fixpoint is_ancestor (fuel : nat) (d k : string) : bool :=
  let h := (posixpath.split k).1 in
  if bool_decide (h = d) then true
  else match fuel with
       | S fuel' => if bool_decide (h = k) then false else is_ancestor fuel' d h
       | O => false
       end.

Definition has_below (d : string) (disk : gmap string node) : bool :=
  existsb (fun kv => is_ancestor (String.length kv.1) d kv.1) (map_to_list disk).

(** The directory [d] is there: it is the working directory (the empty
    head), the root, an entry, or above an entry. *)
Definition is_dir (d : string) (disk : gmap string node) : bool :=
  str_empty d || all_sep d
  || match disk !! d with Some Dir => true | _ => false end
  || has_below d disk.

(** [os.path.exists(p)] as [tarfile] and [os.makedirs] ask it of a
    directory: something is at [p], as a directory that is there or as an
    entry; nothing is at the empty path. *)
Definition known (p : string) (disk : gmap string node) : bool :=
  negb (str_empty p) && (is_dir p disk || bool_decide (is_Some (disk !! p))).

(** How the host finds the directory [d] when it walks to it: there,
    missing, or barred by a regular file on the way. *)
Inductive dir_state := DirThere | DirMissing | DirBarred.

Fixpoint dir_status (fuel : nat) (d : string) (disk : gmap string node)
  : dir_state :=
  if is_dir d disk then DirThere
  else match disk !! d with
       | Some (File _) => DirBarred
       | _ =>
           match fuel with
           | S fuel' =>
               match dir_status fuel' (posixpath.split d).1 disk with
               | DirBarred => DirBarred
               | _ => DirMissing
               end
           | O => DirMissing
           end
       end.

(** What bars a new entry at [p], where the disk has none: the empty path
    names nothing, and the directory [parent] the entry is to be in must be
    there. The length of [p] is fuel enough, each head being shorter than
    its path ([dir_status_fuel]). *)
Definition cannot_create (p parent : string) (disk : gmap string node)
  : option exn :=
  if str_empty p then Some (ENOENT p)
  else match dir_status (String.length p) parent disk with
       | DirThere => None
       | DirMissing => Some (ENOENT p)
       | DirBarred => Some (NotADirectoryError p)
       end.

(** The requests the SDK sends to the service. *)
Inductive request :=
| Upload (url : string)
| Download (url : string)
| Delete (url : string).

(** The local disk, the bucket, the exception with which the SDK gives a
    request up (if it does), and the requests sent so far, oldest first. *)
Record world := World {
  disk : gmap string node;
  bucket : gmap string content;
  net : option exn;
  sent : list request
}.

Definition set_disk (d : gmap string node) (w : world) : world :=
  {| disk := d; bucket := bucket w; net := net w; sent := sent w |}.

Definition set_bucket (b : gmap string content) (w : world) : world :=
  {| disk := disk w; bucket := b; net := net w; sent := sent w |}.

Definition log (r : request) (w : world) : world :=
  {| disk := disk w; bucket := bucket w; net := net w; sent := sent w ++ [r] |}.

(** What the program relies on and this file leaves open: the members
    [tarfile] collects when it is given a directory (the directory and,
    recursively, what is below it), whether this release of the storage
    SDK removes the file it has opened when the object is missing, and the
    working directory of the process. *)
Class Host := {
  tar_walk : gmap string node -> string -> string -> list (string * entry);
  sdk_removes_partial : bool;
  getcwd : string
}.

(** ** Computations that change the world and may raise *)

Inductive result (A : Type) :=
| Ok (a : A)
| Raise (e : exn).
Arguments Ok {A} a.
Arguments Raise {A} e.

Definition M (A : Type) : Type := world -> result A * world.

Definition ret {A} (a : A) : M A := fun w => (Ok a, w).
Definition raise {A} (e : exn) : M A := fun w => (Raise e, w).
Definition bind {A B} (m : M A) (k : A -> M B) : M B :=
  fun w => match m w with
           | (Ok a, w') => k a w'
           | (Raise e, w') => (Raise e, w')
           end.
Definition get_disk : M (gmap string node) := fun w => (Ok (disk w), w).
Definition put_disk (d : gmap string node) : M unit := fun w => (Ok tt, set_disk d w).

(** [try: m except: h], where [h] tells which exceptions it catches. *)
Definition try_except {A} (m : M A) (h : exn -> option (M A)) : M A :=
  fun w => match m w with
           | (Ok a, w') => (Ok a, w')
           | (Raise e, w') =>
               match h e with
               | Some k => k w'
               | None => (Raise e, w')
               end
           end.

Notation "x <- m ;; k" := (bind m (fun x => k))
  (at level 100, m at next level, right associativity).
Notation "m ;;; k" := (bind m (fun _ => k))
  (at level 100, right associativity).

Definition when (b : bool) (m : M unit) : M unit := if b then m else ret tt.

(** ** os *)

Module os.

(** [os.path.exists(p)] as the client asks it, and [os.remove(p)], go by
    the entry at [p]; a directory that is there through what is below it
    has none. *)
Definition path_exists (p : string) : M bool :=
  d <- get_disk ;; ret (bool_decide (is_Some (d !! p))).

Definition remove (p : string) : M unit :=
  d <- get_disk ;;
  match d !! p with
  | Some (File _) => put_disk (delete p d)
  | Some Dir => raise (IsADirectoryError p)
  | None => raise (ENOENT p)
  end.

(** [os.mkdir(p, mode)]; the mode is not kept. Slashes that end [p] do not
    count when the host looks for the directory the new one is to be in. *)
Definition mkdir (p : string) (mode : Z) : M unit :=
  d <- get_disk ;;
  match d !! p with
  | Some _ => raise (FileExistsError p)
  | None =>
      if negb (str_empty p) && is_dir p d then raise (FileExistsError p)
      else
        match cannot_create p (posixpath.split (rstrip_sep p)).1 d with
        | Some e => raise e
        | None => put_disk (<[p := Dir]> d)
        end
  end.

(** [os.makedirs(name)]: the head is made first where it is not there, then
    the directory itself. The length of the name is fuel enough
    ([makedirs_fuel]). *)
Fixpoint makedirs (fuel : nat) (name : string) : M unit :=
  let '(head, tail) := posixpath.split name in
  let '(head, tail) :=
    if str_empty tail then posixpath.split head else (head, tail) in
  d <- get_disk ;;
  go <- (if negb (str_empty head) && negb (str_empty tail) && negb (known head d)
         then match fuel with
              | S fuel' =>
                  try_except (makedirs fuel' head)
                    (fun e => match e with
                              | FileExistsError _ => Some (ret tt)
                              | _ => None
                              end) ;;;
                  ret (negb (bool_decide (tail = ".")))
              | O => ret true
              end
         else ret true) ;;
  if go then mkdir name 511 else ret tt.

(** [open(p, "wb")] followed by writing [c]: what stands at [p] is read off
    the entry at [p], and a new entry needs its directory. *)
Definition write_file (p : string) (c : content) : M unit :=
  d <- get_disk ;;
  match d !! p with
  | Some Dir => raise (IsADirectoryError p)
  | Some (File _) => put_disk (<[p := File c]> d)
  | None =>
      match cannot_create p (posixpath.split p).1 d with
      | Some e => raise e
      | None => put_disk (<[p := File c]> d)
      end
  end.

(** [os.path.abspath] *)
Definition path_abspath `{Host} (p : string) : string :=
  posixpath.normpath (if startswith_sep p then p else posixpath.join getcwd p).

(** [open(p, "rb")] followed by reading all of it: what stands at [p] is
    read off the entry at [p], and where there is none the failure is
    [ENOENT], whatever is on the way to [p]. *)
Definition read_file (p : string) : M content :=
  d <- get_disk ;;
  match d !! p with
  | Some (File c) => ret c
  | Some Dir => raise (IsADirectoryError p)
  | None => raise (ENOENT p)
  end.

End os.

(** ** tarfile *)

Module tarfile.

(** A [TarFile] object: the name it was opened with, the compression level
    and the members it holds. *)
Record TarFile := {
  tf_name : string;
  tf_level : Z;
  tf_members : list (string * entry)
}.

(** [TarFile.gzopen(name, mode='w', compresslevel=level)]: the file is
    created, or emptied; it is an archive once it is closed. *)
Definition gzopen (name : string) (level : Z) : M TarFile :=
  os.write_file name (Raw "") ;;;
  ret {| tf_name := name; tf_level := level; tf_members := [] |}.

(** [tar.add(name, arcname=arcname)]: the archive itself is skipped
    ([os.path.abspath(name) == self.name], the absolute path of the name
    the archive was opened with), a regular file becomes one member under
    [arcname] without leading slashes, a directory is walked. *)
Definition add `{Host} (tar : TarFile) (name arcname : string) : M TarFile :=
  if bool_decide (os.path_abspath name = os.path_abspath (tf_name tar))
  then ret tar
  else
    d <- get_disk ;;
    match d !! name with
    | None => raise (ENOENT name)
    | Some (File c) =>
        ret {| tf_name := tf_name tar; tf_level := tf_level tar;
               tf_members := tf_members tar ++ [(lstrip_sep arcname, RegEntry c)] |}
    | Some Dir =>
        ret {| tf_name := tf_name tar; tf_level := tf_level tar;
               tf_members := tf_members tar ++ tar_walk d name arcname |}
    end.

(** [tar.close()] of an archive opened for writing. *)
Definition close_w (tar : TarFile) : M unit :=
  os.write_file (tf_name tar) (TarGz (tf_level tar) (tf_members tar)).

(** [tarfile.open(path)]: refuses the empty name (at which the disk has
    nothing), then opens for reading whatever compression it finds; the
    members are those the file holds when it is opened. *)
Definition open (path : string) : M TarFile :=
  d <- get_disk ;;
  when (str_empty path && bool_decide (d !! path = None))
    (raise (ValueError "nothing to open")) ;;;
  c <- os.read_file path ;;
  match c with
  | TarGz level ms => ret {| tf_name := path; tf_level := level; tf_members := ms |}
  | Raw _ => raise (ReadError "file could not be opened successfully")
  end.

Definition getmembers (tf : TarFile) : list (string * entry) := tf_members tf.

(** One member written at [os.path.join(path, name)], its name taken as it
    is stored (no extraction filter, and a slash that ends the name is
    kept): the directories above it are made where they are not there,
    then a regular file is written over what is there, and a directory is
    made unless something is there. *)
Definition extract_member (path : string) (m : string * entry) : M unit :=
  let target := posixpath.join path m.1 in
  let upperdirs := (posixpath.split target).1 in
  d <- get_disk ;;
  when (negb (str_empty upperdirs) && negb (known upperdirs d))
    (os.makedirs (String.length upperdirs) upperdirs) ;;;
  match m.2 with
  | RegEntry c => os.write_file target c
  | DirEntry =>
      try_except (os.mkdir target 448)
        (fun e => match e with
                  | FileExistsError _ => Some (ret tt)
                  | _ => None
                  end)
  end.

(** [tf.extractall(path=path)] *)
Fixpoint extract_members (path : string) (ms : list (string * entry)) : M unit :=
  match ms with
  | [] => ret tt
  | m :: ms' => extract_member path m ;;; extract_members path ms'
  end.

Definition extractall (tf : TarFile) (path : string) : M unit :=
  extract_members path (getmembers tf).

(** [tf.close()] of an archive opened for reading. *)
Definition close_r (tf : TarFile) : M unit := ret tt.

End tarfile.

(** ** The bucket: [self.bucket.blob(url)] and its three requests *)

Module blob.

(** One request: it is recorded once, however often the SDK tries it; the
    SDK gives it up with the exception of [net], if there is one, else the
    request is carried out on the bucket. *)
Definition send {A} (r : request)
    (serve : gmap string content -> result A * gmap string content) : M A :=
  fun w =>
    let w := log r w in
    match net w with
    | Some e => (Raise e, w)
    | None => let '(a, b) := serve (bucket w) in (a, set_bucket b w)
    end.

Definition no_such_object (url : string) : exn :=
  NotFound ("No such object: " +:+ url).

(** The service's answer to a request for the object at [url]. *)
Definition fetch (url : string) : M content :=
  send (Download url)
    (fun b => match b !! url with
              | Some c => (Ok c, b)
              | None => (Raise (no_such_object url), b)
              end).

Definition is_NotFound (e : exn) : bool :=
  match e with NotFound _ => true | _ => false end.

(** [blob.upload_from_filename(filename)]: the file is read, then sent;
    the object at [url] is replaced. *)
Definition upload_from_filename (url filename : string) : M unit :=
  c <- os.read_file filename ;;
  send (Upload url) (fun b => (Ok tt, <[url := c]> b)).

(** [blob.download_to_filename(filename)]: the file is opened for
    writing, then the object is fetched and written to it. *)
Definition download_to_filename `{Host} (url filename : string) : M unit :=
  os.write_file filename (Raw "") ;;;
  try_except
    (c <- fetch url ;; os.write_file filename c)
    (fun e =>
       if is_NotFound e && sdk_removes_partial
       then Some (os.remove filename ;;; raise e)
       else None).

(** [blob.delete()] *)
Definition delete (url : string) : M unit :=
  send (Delete url)
    (fun b => match b !! url with
              | Some _ => (Ok tt, base.delete url b)
              | None => (Raise (no_such_object url), b)
              end).

End blob.

(** ** FireBaseStorageClient *)

Section Client.

Context {host : Host}.

(** The client keeps the bucket handle, which is the [bucket] of the world,
    and the folder it was given. *)
Record FireBaseStorageClient := {
  folder : option string
}.

(** [__init__]: loading the credentials and opening the bucket are the
    SDK's; what the client keeps of its arguments is [folder]. *)
Definition __init__ (cred_path bucket_name : string) (folder : option string)
  : FireBaseStorageClient :=
  {| folder := folder |}.

(** [if self.folder:] is true for a string that is not empty. *)
Definition truthy (folder : option string) : bool :=
  match folder with
  | Some (String _ _) => true
  | _ => false
  end.

Definition _archive_file (self : FireBaseStorageClient) (path : string) : M string :=
  let '(head, tail) := posixpath.split path in
  let output_filename := re.sub ".tar.gz" tail in
  tar <- tarfile.gzopen (posixpath.join head output_filename) 5 ;;
  tar <- tarfile.add tar path (posixpath.basename path) ;;
  tarfile.close_w tar ;;;
  ret (posixpath.join head output_filename).

Definition _extract (self : FireBaseStorageClient) (path : string) : M string :=
  let '(head, tail) := posixpath.split path in
  tf <- tarfile.open path ;;
  filename <-
    match tarfile.getmembers tf with
    | [m] => ret m.1
    | _ => raise (FileNotFoundError "Cant recognize name of file")
    end ;;
  tarfile.extractall tf head ;;;
  tarfile.close_r tf ;;;
  b <- os.path_exists path ;;
  when b (os.remove path) ;;;
  ret (posixpath.join head filename).

Definition upload_file (self : FireBaseStorageClient) (file : string) (archive : bool)
  : M string :=
  tar <- (if archive then _archive_file self file else ret file) ;;
  let '(head, file_name) := posixpath.split tar in
  let url :=
    if truthy (folder self)
    then default "" (folder self) +:+ "/" +:+ file_name
    else file_name in
  blob.upload_from_filename url tar ;;;
  b <- os.path_exists file ;;
  when b (os.remove file) ;;;
  b <- os.path_exists tar ;;
  when b (os.remove tar) ;;;
  ret url.

Definition download_file (self : FireBaseStorageClient) (url to_path : string)
    (extract : bool) : M string :=
  b <- os.path_exists to_path ;;
  when (negb b) (os.mkdir to_path 493) ;;;
  let '(head, file) := posixpath.split url in
  let path := posixpath.join to_path file in
  try_except
    (blob.download_to_filename url path)
    (fun e =>
       if blob.is_NotFound e
       then Some (raise (FileNotFoundError "File not found on server"))
       else None) ;;;
  extract_path <- (if extract then _extract self path else ret path) ;;
  ret extract_path.

Definition delete_file (self : FireBaseStorageClient) (url : string) : M unit :=
  blob.delete url.

End Client.

(** ** Vocabulary of the properties *)

Fixpoint has_sep (s : string) : bool :=
  match s with
  | EmptyString => false
  | String c s' => is_sep c || has_sep s'
  end.

Fixpoint all_word (s : string) : bool :=
  match s with
  | EmptyString => true
  | String c s' => is_word c && all_word s'
  end.

(** A head as [posixpath.split] gives it: empty, made of slashes only, or
    not ended by a slash. *)
Definition stripped (h : string) : bool :=
  str_empty h || all_sep h || negb (endswith_sep h).

(** A file name with a conventional extension: a stem, a dot, and an
    extension of one or more word characters. *)
Definition conventional (name : string) : Prop :=
  exists stem ext,
    name = stem +:+ String "."%char ext /\ str_empty ext = false /\ all_word ext = true.

(** Where [_archive_file] puts the archive of [path]. *)
Definition archive_path (path : string) : string :=
  posixpath.join (posixpath.split path).1
    (re.sub ".tar.gz" (posixpath.split path).2).

(** What [upload_file] sends: the archive, or the file itself. *)
Definition transfer_unit (file : string) (archive : bool) : string :=
  if archive then archive_path file else file.

(** A host on which a directory is archived as if it were empty, the SDK
    removes the file of a missing object, and the process runs in
    [/home/user]; used to run examples. *)
Definition plain_host : Host :=
  {| tar_walk := fun _ _ arcname => [(arcname, DirEntry)];
     sdk_removes_partial := true;
     getcwd := "/home/user" |}.

(** The key [upload_file] stores the transfer unit [tar] under. *)
Definition remote_key (self : FireBaseStorageClient) (tar : string) : string :=
  let file_name := posixpath.basename tar in
  if truthy (folder self)
  then default "" (folder self) +:+ "/" +:+ file_name
  else file_name.

(** The first step of [upload_file]: the transfer unit is made. *)
Definition make_transfer_unit `{Host} (self : FireBaseStorageClient)
    (file : string) (archive : bool) : M string :=
  if archive then _archive_file self file else ret file.

(** A name that [normpath] keeps as it is: not empty, not [.], not [..],
    without a slash. *)
Definition proper_name (n : string) : Prop :=
  str_empty n = false /\ n <> "." /\ n <> ".." /\ has_sep n = false.





(** A directory [download_file] can put a file in: it is an entry of the
    disk, or nothing is there and it can be made. *)
Definition usable_dir (to_path : string) (d : gmap string node) : Prop :=
  str_empty to_path = false /\
  (d !! to_path = Some Dir \/
   (d !! to_path = None /\ is_dir to_path d = false /\
    is_dir (posixpath.split (rstrip_sep to_path)).1 d = true)).


(** The remote key as the spec words it, with the folder prefixed whenever
    one was given to the constructor. *)
Definition remote_key_as_stated `{Host} : Prop :=
  forall self file archive w url w',
    upload_file self file archive w = (Ok url, w') ->
    url = match folder self with
          | None => posixpath.basename (transfer_unit file archive)
          | Some f => f +:+ "/" +:+ posixpath.basename (transfer_unit file archive)
          end.

(** A disk with one file, a reachable service and an empty bucket. *)
Definition report_world : world :=
  {| disk := {[ "report.csv" := File (Raw "a,b") ]};
     bucket := ∅; net := None; sent := [] |}.

(** The same, with a service that cannot be reached. *)
Definition offline_world : world :=
  {| disk := {[ "report.csv" := File (Raw "a,b") ]};
     bucket := ∅; net := Some (TransportError "connection timed out");
     sent := [] |}.

(** A client of the folder [backups], and one given the empty folder. *)
Definition backups_client : FireBaseStorageClient :=
  __init__ "cred.json" "my-application.appspot.com" (Some "backups").

Definition empty_folder_client : FireBaseStorageClient :=
  __init__ "cred.json" "my-application.appspot.com" (Some "").

(** Downloaded archives: one with two members, one with none, one with a
    single member. *)
Definition two_members : content :=
  TarGz 5 [("a.csv", RegEntry (Raw "1")); ("b.csv", RegEntry (Raw "2"))].

Definition one_member : content :=
  TarGz 5 [("report.csv", RegEntry (Raw "a,b"))].

(** An archive whose one member has an absolute name. *)
Definition absolute_member : content :=
  TarGz 5 [("/tmp/report.csv", RegEntry (Raw "a,b"))].

(** A disk with these archives in [out], and a file in [/tmp]. *)
Definition archives_world : world :=
  {| disk := {[ "out/two.tar.gz" := File two_members;
                "out/none.tar.gz" := File (TarGz 5 []);
                "out/report.tar.gz" := File one_member;
                "out/absolute.tar.gz" := File absolute_member;
                "/tmp/lock" := File (Raw "") ]};
     bucket := ∅; net := None; sent := [] |}.

(** A computation keeps [R] when, whatever it returns or raises, the world
    it leaves is related by [R] to the one it found. *)
Definition keeps {A} (R : world -> world -> Prop) (m : M A) : Prop :=
  forall w r w', m w = (r, w') -> R w w'.

(** Nothing of the service has changed: the bucket, the state of the
    service, and the requests sent. *)
Definition remote_same (w w' : world) : Prop :=
  bucket w' = bucket w /\ net w' = net w /\ sent w' = sent w.

(** The disk is the same at every path that [S] does not hold of. *)
Definition disk_same_outside (S : string -> Prop) (w w' : world) : Prop :=
  forall p, ~ S p -> disk w' !! p = disk w !! p.


(** A bucket that holds the report, plain and archived, and an empty disk. *)
Definition stored_world : world :=
  {| disk := ∅;
     bucket := {[ "backups/report.csv" := Raw "a,b";
                  "backups/report.tar.gz" := one_member;
                  "backups/two.tar.gz" := two_members ]};
     net := None; sent := [] |}.

(** The bucket is as it was. *)
Definition bucket_same (w w' : world) : Prop := bucket w' = bucket w.

(** The bucket is the same at every key that [S] does not hold of. *)
Definition bucket_same_outside (S : string -> Prop) (w w' : world) : Prop :=
  forall k, ~ S k -> bucket w' !! k = bucket w !! k.


(** ** Text and paths *)

Lemma append_nil_r (s : string) : s +:+ "" = s.
Proof. induction s as [|c s IH]; simpl; [done | by rewrite IH]. Qed.

Lemma append_assoc (a b c : string) : (a +:+ b) +:+ c = a +:+ b +:+ c.
Proof. induction a as [|x a IH]; simpl; [done | by rewrite IH]. Qed.

Lemma append_inv_head (a b c : string) : a +:+ b = a +:+ c -> b = c.
Proof. induction a as [|x a IH]; simpl; [done |]. intros [= H]. auto. Qed.

Lemma has_sep_app (a b : string) : has_sep (a +:+ b) = has_sep a || has_sep b.
Proof.
  induction a as [|c a IH]; simpl; [done |].
  rewrite IH. by rewrite orb_assoc.
Qed.

Lemma str_take_app (x t : string) : str_take (String.length x) (x +:+ t) = x.
Proof.
  induction x as [|c x IH]; simpl; [by destruct t | by rewrite IH].
Qed.

Lemma str_drop_app (x t : string) : str_drop (String.length x) (x +:+ t) = t.
Proof. induction x as [|c x IH]; simpl; [done | exact IH]. Qed.

Lemma rfind_sep_None (s : string) : rfind_sep s = None <-> has_sep s = false.
Proof.
  induction s as [|c s IH]; simpl; [done |].
  destruct (rfind_sep s) as [k|].
  - split; [done |]. intros [_ H]%orb_false_iff.
    apply IH in H. done.
  - destruct (is_sep c); simpl; [done |]. rewrite <- IH. done.
Qed.

Lemma startswith_no_sep (s : string) : has_sep s = false -> startswith_sep s = false.
Proof. destruct s as [|c s]; simpl; [done |]. by intros [? _]%orb_false_iff. Qed.

Lemma cut_no_sep (s : string) : has_sep s = false -> posixpath.cut s = 0%nat.
Proof. intros H%rfind_sep_None. unfold posixpath.cut. by rewrite H. Qed.

Lemma cut_app (x t : string) :
  endswith_sep x = true -> has_sep t = false ->
  posixpath.cut (x +:+ t) = String.length x.
Proof.
  intros Hx Ht. unfold posixpath.cut.
  induction x as [|c x IH]; [done |].
  destruct x as [|c' x].
  - simpl in *. apply rfind_sep_None in Ht. rewrite Ht, Hx. done.
  - specialize (IH Hx).
    change (rfind_sep (String c (String c' x) +:+ t))
      with (match rfind_sep (String c' x +:+ t) with
            | Some k => Some (S k)
            | None => if is_sep c then Some 0%nat else None
            end).
    destruct (rfind_sep (String c' x +:+ t)) as [k|]; [| done].
    simpl in *. congruence.
Qed.

Lemma basename_no_sep (p : string) : has_sep (posixpath.basename p) = false.
Proof.
  unfold posixpath.basename, posixpath.cut.
  induction p as [|c p IH]; [done |].
  simpl. destruct (rfind_sep p) as [k|] eqn:E.
  - exact IH.
  - apply rfind_sep_None in E.
    destruct (is_sep c) eqn:Ec; simpl; [done |]. by rewrite Ec.
Qed.

Lemma split_tail (p : string) : (posixpath.split p).2 = posixpath.basename p.
Proof. done. Qed.

Lemma endswith_rstrip (x : string) : endswith_sep (rstrip_sep x) = false.
Proof.
  induction x as [|c x IH]; [done |]. simpl.
  destruct (rstrip_sep x) as [|c' r] eqn:E; simpl.
  - destruct (is_sep c) eqn:Ec; simpl; done.
  - exact IH.
Qed.

Lemma split_head_stripped (p : string) : stripped (posixpath.split p).1 = true.
Proof.
  unfold posixpath.split, stripped. simpl.
  destruct (str_empty (str_take (posixpath.cut p) p)) eqn:E1; simpl.
  { by rewrite E1. }
  destruct (all_sep (str_take (posixpath.cut p) p)) eqn:E2; simpl.
  - rewrite E1, E2. done.
  - rewrite endswith_rstrip. by rewrite !orb_true_r.
Qed.

Lemma endswith_snoc (h : string) : endswith_sep (h +:+ "/") = true.
Proof.
  induction h as [|c h IH]; [done |].
  simpl. destruct (h +:+ "/") eqn:E; [by destruct h | exact IH].
Qed.


Lemma rstrip_snoc (h : string) :
  str_empty h = false -> endswith_sep h = false -> rstrip_sep (h +:+ "/") = h.
Proof.
  induction h as [|c h IH]; [done |]. intros _ He.
  destruct h as [|c' h].
  - simpl in *. by rewrite He.
  - change (rstrip_sep (String c (String c' h) +:+ "/"))
      with (let r := rstrip_sep (String c' h +:+ "/") in
            if str_empty r && is_sep c then EmptyString else String c r).
    rewrite IH; done.
Qed.

Lemma all_sep_snoc (h : string) :
  str_empty h = false -> endswith_sep h = false -> all_sep (h +:+ "/") = false.
Proof.
  induction h as [|c h IH]; [done |]. intros _ He.
  destruct h as [|c' h].
  - simpl in *. by rewrite He.
  - change (all_sep (String c (String c' h) +:+ "/"))
      with (is_sep c && all_sep (String c' h +:+ "/")).
    rewrite IH; [apply andb_false_r | done | done].
Qed.

(** Splitting a joined path gives the two parts back, when the head is one
    that [split] gives and the tail has no slash. *)
Lemma split_join (h t : string) :
  stripped h = true -> has_sep t = false ->
  posixpath.split (posixpath.join h t) = (h, t).
Proof.
  intros Hh Ht. unfold posixpath.join.
  rewrite (startswith_no_sep t Ht).
  destruct (str_empty h) eqn:E1.
  - destruct h; [| done]. simpl.
    unfold posixpath.split. rewrite (cut_no_sep t Ht). simpl. by destruct t.
  - simpl. destruct (endswith_sep h) eqn:E2.
    + unfold stripped in Hh. rewrite E1, E2 in Hh. simpl in Hh.
      rewrite orb_false_r in Hh.
      unfold posixpath.split. rewrite (cut_app h t E2 Ht).
      rewrite str_take_app, str_drop_app, E1, Hh. done.
    + unfold posixpath.split.
      replace (h +:+ String sep t) with ((h +:+ "/") +:+ t)
        by (by rewrite append_assoc).
      rewrite (cut_app (h +:+ "/") t (endswith_snoc h) Ht).
      rewrite str_take_app, str_drop_app.
      rewrite (all_sep_snoc h E1 E2), (rstrip_snoc h E1 E2).
      destruct (h +:+ "/") eqn:E; [by destruct h | done].
Qed.

Lemma join_plain (a b : string) :
  str_empty a = false -> endswith_sep a = false -> startswith_sep b = false ->
  posixpath.join a b = a +:+ "/" +:+ b.
Proof. unfold posixpath.join. by intros -> -> ->. Qed.

Lemma basename_join (h t : string) :
  stripped h = true -> has_sep t = false ->
  posixpath.basename (posixpath.join h t) = t.
Proof. intros Hh Ht. rewrite <- split_tail, split_join; done. Qed.

(** ** The pattern *)

Lemma at_end_cases (r : string) :
  re.at_end r = true -> r = "" \/ r = String newline "".
Proof.
  destruct r as [|c [|c' r]]; simpl; [by left | | done].
  intros H%Ascii.eqb_eq. right. by rewrite H.
Qed.

Lemma match_here_rest (s m rest : string) :
  re.match_here s = Some (m, rest) -> rest = "" \/ rest = String newline "".
Proof.
  destruct s as [|c s]; simpl; [done |].
  destruct (is_newline c); [done |].
  destruct (re.word_span s) as [w r].
  destruct (str_empty w); [done |].
  destruct (re.at_end r) eqn:E; [| done].
  intros [= _ <-]. by apply at_end_cases.
Qed.

(** After a match the scan finds nothing more: [re.sub] stops there. *)
Lemma sub_rest (repl s m rest : string) :
  re.match_here s = Some (m, rest) -> re.sub repl rest = rest.
Proof. intros [-> | ->]%match_here_rest; done. Qed.

Lemma sub_no_sep (repl t : string) :
  has_sep repl = false -> has_sep t = false -> has_sep (re.sub repl t) = false.
Proof.
  intros Hr. induction t as [|c t IH]; [done |].
  intros [Hc Ht]%orb_false_iff.
  change (re.sub repl (String c t))
    with (match re.match_here (String c t) with
          | Some (_, rest) => repl +:+ rest
          | None => String c (re.sub repl t)
          end).
  destruct (re.match_here (String c t)) as [[m rest]|] eqn:E.
  - rewrite has_sep_app, Hr.
    apply match_here_rest in E as [-> | ->]; done.
  - simpl. by rewrite Hc, IH.
Qed.

Lemma word_span_all (ext : string) :
  all_word ext = true -> re.word_span ext = (ext, "").
Proof.
  induction ext as [|c ext IH]; [done |]. simpl.
  intros [Hc He]%andb_true_iff. by rewrite Hc, IH.
Qed.

Lemma word_span_before_dot (a ext w r : string) :
  re.word_span (a +:+ String "."%char ext) = (w, r) ->
  exists a', r = a' +:+ String "."%char ext.
Proof.
  revert w r. induction a as [|c a IH]; intros w r.
  - simpl. intros [= _ <-]. by exists "".
  - simpl. destruct (is_word c).
    + destruct (re.word_span (a +:+ String "."%char ext)) as [w' r'] eqn:E.
      intros [= _ <-]. by eapply IH.
    + intros [= _ <-]. by exists (String c a).
Qed.

Lemma match_here_before_dot (c : ascii) (a ext : string) :
  str_empty ext = false ->
  re.match_here (String c (a +:+ String "."%char ext)) = None.
Proof.
  intros He. simpl. destruct (is_newline c); [done |].
  destruct (re.word_span (a +:+ String "."%char ext)) as [w r] eqn:E.
  destruct (str_empty w); [done |].
  apply word_span_before_dot in E as [a' ->].
  destruct a' as [|c' a']; simpl.
  - by destruct ext.
  - destruct (a' +:+ String "."%char ext) eqn:E'; [by destruct a' | done].
Qed.

(** On a name with a conventional extension the pattern matches the dot and
    the extension, and nothing before. *)
Lemma sub_conventional (repl stem ext : string) :
  str_empty ext = false -> all_word ext = true ->
  re.sub repl (stem +:+ String "."%char ext) = stem +:+ repl.
Proof.
  intros He Hw. induction stem as [|c stem IH].
  - destruct ext as [|e ext]; [done |].
    change (re.sub repl ("" +:+ String "."%char (String e ext)))
      with (match re.match_here (String "."%char (String e ext)) with
            | Some (_, rest) => repl +:+ rest
            | None => String "."%char (re.sub repl (String e ext))
            end).
    unfold re.match_here. simpl is_newline. cbv iota.
    rewrite (word_span_all _ Hw). simpl. by rewrite append_nil_r.
  - change (re.sub repl (String c stem +:+ String "."%char ext))
      with (match re.match_here (String c (stem +:+ String "."%char ext)) with
            | Some (_, rest) => repl +:+ rest
            | None => String c (re.sub repl (stem +:+ String "."%char ext))
            end).
    rewrite (match_here_before_dot c stem ext He), IH. done.
Qed.

Lemma sub_conventional_changes (stem ext : string) :
  all_word ext = true ->
  stem +:+ ".tar.gz" <> stem +:+ String "."%char ext.
Proof.
  intros Hw H. apply append_inv_head in H. injection H as <-. done.
Qed.

(** Where the pattern matches nowhere, [re.sub] gives the text back. *)
Lemma sub_unmatched (repl t : string) :
  re.search t = false -> re.sub repl t = t.
Proof.
  induction t as [|c t IH]; [done |].
  change (re.search (String c t))
    with (match re.match_here (String c t) with
          | Some _ => true
          | None => re.search t
          end).
  change (re.sub repl (String c t))
    with (match re.match_here (String c t) with
          | Some (_, rest) => repl +:+ rest
          | None => String c (re.sub repl t)
          end).
  destruct (re.match_here (String c t)) as [[m rest]|]; [done |].
  intros H. by rewrite IH.
Qed.

(** ** Absolute paths *)

Lemma str_take_drop (n : nat) (s : string) : str_take n s +:+ str_drop n s = s.
Proof.
  revert s. induction n as [|n IH]; intros [|c s]; simpl; try done.
  by rewrite IH.
Qed.

Lemma rfind_sep_endswith (p : string) (k : nat) :
  rfind_sep p = Some k -> endswith_sep (str_take (S k) p) = true.
Proof.
  revert k. induction p as [|c p IH]; intros k; [done |].
  simpl. destruct (rfind_sep p) as [k'|] eqn:E.
  - intros [= <-]. specialize (IH k' eq_refl).
    destruct (str_take (S k') p) eqn:Et; [done | exact IH].
  - destruct (is_sep c) eqn:Ec; [| done]. intros [= <-].
    destruct p; simpl; by rewrite ?Ec.
Qed.

Lemma endswith_app (x h : string) :
  endswith_sep h = true -> endswith_sep (x +:+ h) = true.
Proof.
  intros Hh. induction x as [|c x IH]; [done |].
  simpl. destruct (x +:+ h) eqn:E; [| exact IH].
  destruct x; [| done]. simpl in E. by subst h.
Qed.

Lemma str_drop_0 (s : string) : str_drop 0 s = s.
Proof. by destruct s. Qed.

(** A name without a slash, put after nothing or after a slash, is the
    base name. *)
Lemma basename_app_name (x n : string) :
  str_empty x = true \/ endswith_sep x = true ->
  has_sep n = false ->
  posixpath.basename (x +:+ n) = n.
Proof.
  intros [Hx | Hx] Hn; unfold posixpath.basename.
  - destruct x; [| done]. simpl. by rewrite (cut_no_sep n Hn), str_drop_0.
  - by rewrite (cut_app x n Hx Hn), str_drop_app.
Qed.

Lemma basename_app (x p : string) :
  str_empty x = true \/ endswith_sep x = true ->
  posixpath.basename (x +:+ p) = posixpath.basename p.
Proof.
  intros Hx. destruct (has_sep p) eqn:Hp.
  - destruct (rfind_sep p) as [k|] eqn:Ek;
      [| apply rfind_sep_None in Ek; congruence].
    pose proof (rfind_sep_endswith p k Ek) as He.
    pose proof (str_take_drop (S k) p) as Htd.
    assert (Hb : posixpath.basename p = str_drop (S k) p)
      by (unfold posixpath.basename, posixpath.cut; by rewrite Ek).
    rewrite Hb. rewrite <- Htd at 1. rewrite <- append_assoc.
    apply basename_app_name.
    + right. by apply endswith_app.
    + rewrite <- Hb. apply basename_no_sep.
  - rewrite (basename_app_name x p Hx Hp).
    unfold posixpath.basename. by rewrite (cut_no_sep p Hp), str_drop_0.
Qed.

Lemma basename_join_tail (a b : string) :
  posixpath.basename (posixpath.join a b) = posixpath.basename b.
Proof.
  unfold posixpath.join. destruct (startswith_sep b); [done |].
  destruct (str_empty a) eqn:Ea; simpl.
  - apply basename_app. by left.
  - destruct (endswith_sep a) eqn:Ee.
    + apply basename_app. by right.
    + replace (a +:+ String sep b) with ((a +:+ "/") +:+ b)
        by (by rewrite append_assoc).
      apply basename_app. right. apply endswith_snoc.
Qed.

(** The last of the components of a path is its base name. *)
Lemma split_sep_last (s : string) :
  exists init,
    str_split_sep s = (init ++ [posixpath.basename s])%list /\
    (has_sep s = false -> init = []) /\
    (has_sep s = true -> init <> []).
Proof.
  induction s as [|c s (init & Hs & Hn & Hy)].
  { exists []. by repeat split. }
  unfold posixpath.basename, posixpath.cut in *. simpl.
  destruct (rfind_sep s) as [k|] eqn:Ek.
  - assert (Hsep : has_sep s = true).
    { destruct (has_sep s) eqn:E; [done |].
      apply rfind_sep_None in E. congruence. }
    specialize (Hy Hsep). simpl in Hs.
    destruct (is_sep c) eqn:Ec; simpl.
    + exists ("" :: init). rewrite Hs. by repeat split.
    + destruct init as [|x rest]; [done |].
      rewrite Hs. simpl. exists (String c x :: rest).
      split; [done |]. split; [by rewrite Hsep | done].
  - assert (Hsep : has_sep s = false) by by apply rfind_sep_None.
    rewrite (Hn Hsep) in Hs. rewrite str_drop_0 in Hs. simpl in Hs.
    destruct (is_sep c) eqn:Ec; simpl.
    + exists [""]. rewrite Hs. by repeat split.
    + rewrite Hs. exists []. split; [done |]. split; [done |].
      by rewrite Hsep.
Qed.

Lemma norm_step_proper (rooted : bool) (acc : list string) (n : string) :
  proper_name n -> posixpath.norm_step rooted acc n = (acc ++ [n])%list.
Proof.
  intros (Hne & Hd & Hdd & _). unfold posixpath.norm_step.
  rewrite Hne, (bool_decide_eq_false_2 _ Hd), (bool_decide_eq_false_2 _ Hdd).
  done.
Qed.

Lemma str_join_sep_snoc (xs : list string) (n : string) :
  xs <> [] -> str_join_sep (xs ++ [n])%list = str_join_sep xs +:+ String sep n.
Proof.
  induction xs as [|x xs IH]; [done |]. intros _.
  destruct xs as [|y xs]; [done |].
  change (str_join_sep ((x :: y :: xs) ++ [n])%list)
    with (x +:+ String sep (str_join_sep ((y :: xs) ++ [n])%list)).
  rewrite IH by done.
  change (str_join_sep (x :: y :: xs))
    with (x +:+ String sep (str_join_sep (y :: xs))).
  rewrite append_assoc. done.
Qed.

Lemma endswith_seps (k : nat) : endswith_sep (str_seps (S k)) = true.
Proof. induction k as [|k IH]; [done | exact IH]. Qed.

Lemma str_empty_app (a b : string) :
  str_empty (a +:+ b) = str_empty a && str_empty b.
Proof. by destruct a. Qed.

Lemma basename_nonempty (p : string) :
  str_empty (posixpath.basename p) = false -> str_empty p = false.
Proof. by destruct p. Qed.

(** [normpath] keeps the base name of a path when it is a proper name. *)
Lemma normpath_basename (s : string) :
  proper_name (posixpath.basename s) ->
  posixpath.basename (posixpath.normpath s) = posixpath.basename s.
Proof.
  intros Hp. pose proof Hp as (Hne & _ & _ & Hns).
  unfold posixpath.normpath.
  rewrite (basename_nonempty s Hne).
  destruct (split_sep_last s) as (init & -> & _ & _).
  rewrite fold_left_app. simpl.
  rewrite (norm_step_proper _ _ _ Hp).
  set (acc := fold_left _ init []).
  set (n := posixpath.initial_slashes s).
  set (b := posixpath.basename s) in *.
  assert (Hb : exists x, str_seps n +:+ str_join_sep (acc ++ [b])%list = x +:+ b /\
                         (str_empty x = true \/ endswith_sep x = true)).
  { destruct acc as [|a acc'].
    - exists (str_seps n). split; [done |].
      destruct n; [by left | right; apply endswith_seps].
    - rewrite str_join_sep_snoc by done.
      exists (str_seps n +:+ str_join_sep (a :: acc') +:+ "/").
      split; [by rewrite !append_assoc |].
      right. rewrite <- append_assoc. apply endswith_snoc. }
  destruct Hb as (x & -> & Hx).
  rewrite str_empty_app, Hne, andb_false_r.
  by apply basename_app_name.
Qed.

Lemma conventional_proper (n : string) :
  conventional n -> has_sep n = false -> proper_name n.
Proof.
  intros (stem & ext & -> & He & Hw) Hs.
  repeat split; [by destruct stem | | | done].
  - destruct stem as [|c [|c' stem]]; simpl; [| done | done].
    intros [= ->]. done.
  - destruct stem as [|c [|c' [|c'' stem]]]; simpl; try done.
    + intros [= ->]. done.
    + intros [= -> ->]. done.
Qed.

Lemma conventional_archive_name (stem : string) :
  conventional (stem +:+ ".tar.gz").
Proof.
  exists (stem +:+ ".tar"), "gz". by rewrite append_assoc.
Qed.

Section Abspath.

Context {host : Host}.

Lemma abspath_basename (p : string) :
  proper_name (posixpath.basename p) ->
  posixpath.basename (os.path_abspath p) = posixpath.basename p.
Proof.
  intros Hp. unfold os.path_abspath.
  destruct (startswith_sep p); [by apply normpath_basename |].
  rewrite normpath_basename; rewrite basename_join_tail; done.
Qed.

(** Two paths whose base names are proper names and differ are not the same
    file. *)
Lemma abspath_differ (p q : string) :
  proper_name (posixpath.basename p) ->
  proper_name (posixpath.basename q) ->
  posixpath.basename p <> posixpath.basename q ->
  os.path_abspath p <> os.path_abspath q.
Proof.
  intros Hp Hq Hne E. apply Hne.
  rewrite <- (abspath_basename p Hp), <- (abspath_basename q Hq). by rewrite E.
Qed.

End Abspath.

(** ** Directories *)

Lemma is_ancestor_head (fuel : nat) (k : string) :
  is_ancestor fuel (posixpath.split k).1 k = true.
Proof. destruct fuel; simpl; by rewrite bool_decide_eq_true_2. Qed.

Lemma has_below_entry (d k : string) (n : node) (disk : gmap string node) :
  disk !! k = Some n ->
  is_ancestor (String.length k) d k = true ->
  has_below d disk = true.
Proof.
  intros Hk Ha. unfold has_below. apply existsb_exists.
  exists (k, n). split; [| done].
  apply list_elem_of_In, elem_of_map_to_list. done.
Qed.

(** The directory of an entry is there. *)
Lemma is_dir_head (disk : gmap string node) (k : string) (n : node) :
  disk !! k = Some n -> is_dir (posixpath.split k).1 disk = true.
Proof.
  intros Hk. unfold is_dir.
  rewrite (has_below_entry _ k n disk Hk (is_ancestor_head _ k)).
  apply orb_true_r.
Qed.

Lemma is_dir_entry (disk : gmap string node) (d : string) :
  disk !! d = Some Dir -> is_dir d disk = true.
Proof. intros Hd. unfold is_dir. rewrite Hd. by rewrite orb_true_r. Qed.

Lemma not_dir_entry (disk : gmap string node) (d : string) :
  is_dir d disk = false -> disk !! d <> Some Dir.
Proof. intros H E. apply is_dir_entry in E. congruence. Qed.





Lemma dir_status_there (fuel : nat) (d : string) (disk : gmap string node) :
  is_dir d disk = true -> dir_status fuel d disk = DirThere.
Proof. intros H. destruct fuel; simpl; by rewrite H. Qed.

Lemma cannot_create_there (p parent : string) (disk : gmap string node) :
  str_empty p = false -> is_dir parent disk = true ->
  cannot_create p parent disk = None.
Proof.
  intros Hp Hd. unfold cannot_create. by rewrite Hp, dir_status_there.
Qed.
(** ** Fuel

    The functions that walk up a path take the length of the path as fuel;
    each head is shorter than its path, or is the path. *)

Lemma rstrip_length (s : string) :
  (String.length (rstrip_sep s) <= String.length s)%nat /\
  (String.length (rstrip_sep s) = String.length s -> rstrip_sep s = s).
Proof.
  induction s as [|c s [IH1 IH2]]; [done |]. simpl.
  destruct (str_empty (rstrip_sep s) && is_sep c); simpl.
  - split; [lia | done].
  - split; [lia |]. intros [= H]. by rewrite (IH2 H).
Qed.

Lemma str_take_length (n : nat) (s : string) :
  (String.length (str_take n s) <= String.length s)%nat /\
  (String.length (str_take n s) = String.length s -> str_take n s = s).
Proof.
  revert s. induction n as [|n IH]; intros [|c s]; simpl; try done.
  - split; [lia | done].
  - destruct (IH s) as [IH1 IH2]. split; [lia |].
    intros [= H]. by rewrite (IH2 H).
Qed.

Lemma length_app (a b : string) :
  String.length (a +:+ b) = (String.length a + String.length b)%nat.
Proof. induction a as [|c a IH]; simpl; [done | by rewrite IH]. Qed.

(** Head and tail together are not longer than the path. *)
Lemma split_length (k : string) :
  (String.length (posixpath.split k).1 + String.length (posixpath.split k).2
   <= String.length k)%nat.
Proof.
  unfold posixpath.split. cbn [fst snd].
  pose proof (str_take_drop (posixpath.cut k) k) as Htd.
  apply (f_equal String.length) in Htd. rewrite length_app in Htd.
  destruct (negb _ && negb _).
  - destruct (rstrip_length (str_take (posixpath.cut k) k)) as [H _]. lia.
  - lia.
Qed.

Lemma split_head_length (k : string) :
  (posixpath.split k).1 = k \/
  (String.length (posixpath.split k).1 < String.length k)%nat.
Proof.
  pose proof (split_length k) as Hl.
  destruct (decide (String.length (posixpath.split k).1 = String.length k))
    as [E | Hne]; [left | right; lia].
  revert E. unfold posixpath.split. cbn [fst snd].
  destruct (str_take_length (posixpath.cut k) k) as [Ht1 Ht2].
  destruct (negb _ && negb _).
  - destruct (rstrip_length (str_take (posixpath.cut k) k)) as [Hr1 Hr2].
    intros E. rewrite Hr2 by lia. apply Ht2. lia.
  - exact Ht2.
Qed.

(** More fuel than the length of the path changes nothing. *)
Lemma is_ancestor_fuel (fuel : nat) (d k : string) :
  (String.length k <= fuel)%nat ->
  is_ancestor (S fuel) d k = is_ancestor fuel d k.
Proof.
  revert k. induction fuel as [|fuel IH]; intros k Hk.
  - destruct k; [| simpl in Hk; lia]. simpl. by case_bool_decide.
  - cbn [is_ancestor]. case_bool_decide; [done |].
    case_bool_decide as Hfix; [done |].
    destruct (split_head_length k) as [E | Hlt]; [done |].
    apply IH. lia.
Qed.

Lemma dir_status_S (fuel : nat) (d : string) (disk : gmap string node) :
  dir_status (S fuel) d disk =
  if is_dir d disk then DirThere
  else match disk !! d with
       | Some (File _) => DirBarred
       | _ => match dir_status fuel (posixpath.split d).1 disk with
              | DirBarred => DirBarred
              | _ => DirMissing
              end
       end.
Proof. done. Qed.

Lemma dir_status_fuel (fuel : nat) (d : string) (disk : gmap string node) :
  (String.length d <= fuel)%nat ->
  dir_status (S fuel) d disk = dir_status fuel d disk.
Proof.
  revert d. induction fuel as [|fuel IH]; intros d Hd.
  - destruct d; [| simpl in Hd; lia]. reflexivity.
  - rewrite (dir_status_S (S fuel) d), (dir_status_S fuel d).
    destruct (is_dir d disk) eqn:Edir; [done |].
    destruct (split_head_length d) as [E | Hlt].
    + assert (Hfix : forall n, dir_status n d disk
                               = match disk !! d with
                                 | Some (File _) => DirBarred
                                 | _ => DirMissing
                                 end).
      { induction n as [|n IHn].
        - cbn [dir_status]. rewrite Edir. by destruct (disk !! d) as [[?|]|].
        - rewrite dir_status_S, Edir, E, IHn.
          by destruct (disk !! d) as [[?|]|]. }
      by rewrite E, !Hfix.
    + rewrite IH by lia. done.
Qed.
(** ** Steps of the client *)

Ltac unfold_M :=
  unfold bind, ret, raise, get_disk, put_disk, when, try_except in *.


Lemma lstrip_no_sep (s : string) : has_sep s = false -> lstrip_sep s = s.
Proof. destruct s as [|c s]; simpl; [done |]. by intros [-> _]%orb_false_iff. Qed.

(** [if os.path.exists(p): os.remove(p)] and what follows it. *)
Lemma exists_remove {A} (p : string) (k : M A) (w : world) :
  (b <- os.path_exists p ;; when b (os.remove p) ;;; k) w =
  match disk w !! p with
  | None => k w
  | Some (File _) => k (set_disk (delete p (disk w)) w)
  | Some Dir => (Raise (IsADirectoryError p), w)
  end.
Proof.
  unfold os.path_exists, os.remove. unfold_M.
  destruct (disk w !! p) as [[c|]|] eqn:E; simpl; by rewrite ?E.
Qed.

Lemma bind_inv {A B} (m : M A) (k : A -> M B) w b w' :
  bind m k w = (Ok b, w') ->
  exists a w1, m w = (Ok a, w1) /\ k a w1 = (Ok b, w').
Proof.
  unfold bind. destruct (m w) as [[a|e] w1]; [eauto | done].
Qed.

Lemma bind_ok {A B} (m : M A) (k : A -> M B) w a w1 :
  m w = (Ok a, w1) -> bind m k w = k a w1.
Proof. unfold bind. by intros ->. Qed.

Lemma bind_raise {A B} (m : M A) (k : A -> M B) w e w1 :
  m w = (Raise e, w1) -> bind m k w = (Raise e, w1).
Proof. unfold bind. by intros ->. Qed.

(** Writing a file: over a regular file, at a new path whose directory is
    there, and at a directory. *)
Lemma write_file_over p c c0 w :
  disk w !! p = Some (File c0) ->
  os.write_file p c w = (Ok tt, set_disk (<[p := File c]> (disk w)) w).
Proof. intros H. unfold os.write_file. unfold_M. by rewrite H. Qed.

Lemma write_file_new p c w :
  disk w !! p = None ->
  str_empty p = false ->
  is_dir (posixpath.split p).1 (disk w) = true ->
  os.write_file p c w = (Ok tt, set_disk (<[p := File c]> (disk w)) w).
Proof.
  intros H Hp Hd. unfold os.write_file. unfold_M.
  by rewrite H, cannot_create_there.
Qed.

Lemma write_file_dir p c w :
  disk w !! p = Some Dir ->
  os.write_file p c w = (Raise (IsADirectoryError p), w).
Proof. intros H. unfold os.write_file. unfold_M. by rewrite H. Qed.

(** Whatever it finds, [write_file] writes the file or changes nothing. *)
Lemma write_file_inv p c w r w1 :
  os.write_file p c w = (r, w1) ->
  (r = Ok tt /\ w1 = set_disk (<[p := File c]> (disk w)) w) \/
  (exists e, r = Raise e /\ w1 = w).
Proof.
  unfold os.write_file. unfold_M.
  destruct (disk w !! p) as [[c0|]|]; simpl.
  - intros [= <- <-]. by left.
  - intros [= <- <-]. right. by eexists.
  - destruct (cannot_create p _ (disk w)); simpl; intros [= <- <-].
    + right. by eexists.
    + by left.
Qed.

Lemma write_file_ok p c w w1 :
  os.write_file p c w = (Ok tt, w1) ->
  w1 = set_disk (<[p := File c]> (disk w)) w.
Proof. intros [[_ ->] | (e & [=] & _)]%write_file_inv. done. Qed.

Lemma sub_empty (repl s : string) :
  str_empty repl = false -> re.sub repl s = "" -> s = "".
Proof.
  intros Hr. destruct s as [|c s]; [done |]. simpl.
  destruct (is_newline c); [done |].
  destruct (re.word_span s) as [w r].
  destruct (str_empty w); [done |].
  destruct (re.at_end r); [| done]. by destruct repl.
Qed.

Lemma rstrip_empty (s : string) : rstrip_sep s = "" -> all_sep s = true.
Proof.
  induction s as [|c s IH]; [done |]. simpl.
  destruct (rstrip_sep s); simpl; [| done].
  destruct (is_sep c); [| done]. intros _. by apply IH.
Qed.

(** Only the empty path has an empty head and an empty tail. *)
Lemma split_empty (p : string) :
  (posixpath.split p).1 = "" -> posixpath.basename p = "" -> p = "".
Proof.
  unfold posixpath.split, posixpath.basename. simpl. intros Hh Ht.
  rewrite <- (str_take_drop (posixpath.cut p) p), Ht, append_nil_r.
  destruct (str_take (posixpath.cut p) p) as [|c h] eqn:E; [done |].
  cbn [str_empty negb andb] in Hh.
  destruct (all_sep (String c h)) eqn:Ea; cbn [negb] in Hh; [done |].
  apply rstrip_empty in Hh. congruence.
Qed.

Lemma join_empty (a b : string) : posixpath.join a b = "" -> a = "" /\ b = "".
Proof.
  unfold posixpath.join. destruct (startswith_sep b) eqn:Eb.
  { intros ->. done. }
  destruct (str_empty a || endswith_sep a).
  - destruct a; [| done]. simpl. by intros ->.
  - by destruct a.
Qed.

Lemma split_archive_path (path : string) :
  posixpath.split (archive_path path) =
  ((posixpath.split path).1, re.sub ".tar.gz" (posixpath.basename path)).
Proof.
  unfold archive_path. rewrite split_tail.
  apply split_join; [apply split_head_stripped |].
  apply sub_no_sep; [done | apply basename_no_sep].
Qed.

Lemma archive_path_empty (path : string) : archive_path path = "" -> path = "".
Proof.
  unfold archive_path. intros [Hh Ht]%join_empty.
  apply sub_empty in Ht; [| done]. by apply split_empty.
Qed.

Section Steps.

Context {host : Host}.

(** [tar.add] writes nothing, and keeps the name and the level. *)
Lemma add_inv tar name arcname w r w1 :
  tarfile.add tar name arcname w = (r, w1) ->
  w1 = w /\
  forall tar', r = Ok tar' ->
    tarfile.tf_name tar' = tarfile.tf_name tar /\
    tarfile.tf_level tar' = tarfile.tf_level tar.
Proof.
  unfold tarfile.add. unfold_M.
  case_bool_decide; simpl.
  { intros [= <- <-]. split; [done |]. by intros ? [= <-]. }
  destruct (disk w !! name) as [[c|]|]; simpl; intros [= <- <-];
    (split; [done |]); by intros ? [= <-].
Qed.

(** What [_archive_file] leaves when it returns: the archive at
    [archive_path], written at level 5, and nothing else changed. *)
Lemma archive_file_inv self path w tar w1 :
  _archive_file self path w = (Ok tar, w1) ->
  tar = archive_path path /\
  exists ms, w1 = set_disk (<[tar := File (TarGz 5 ms)]> (disk w)) w.
Proof.
  unfold _archive_file, archive_path.
  destruct (posixpath.split path) as [head tail]. simpl.
  set (out := posixpath.join head (re.sub ".tar.gz" tail)).
  intros (tar0 & w0 & Hopen & H)%bind_inv.
  apply bind_inv in H as (tar1 & w0' & Hadd & H).
  apply bind_inv in H as ([] & w2 & Hclose & [= <- <-]).
  unfold tarfile.gzopen in Hopen.
  apply bind_inv in Hopen as ([] & w0'' & Hw & [= <- <-]).
  apply write_file_ok in Hw as ->.
  apply add_inv in Hadd as [-> Htar]. destruct (Htar _ eq_refl) as [Hn Hl].
  unfold tarfile.close_w in Hclose. simpl in Hn, Hl. rewrite Hn, Hl in Hclose.
  apply write_file_ok in Hclose as ->.
  split; [done |]. eexists. unfold set_disk. simpl.
  by rewrite insert_insert_eq.
Qed.

(** A regular file whose archive is another file is archived as one member
    under its base name, and stays. *)
Lemma archive_file_regular self path c w :
  disk w !! path = Some (File c) ->
  os.path_abspath path <> os.path_abspath (archive_path path) ->
  disk w !! archive_path path <> Some Dir ->
  _archive_file self path w =
  (Ok (archive_path path),
   set_disk (<[archive_path path :=
                File (TarGz 5 [(posixpath.basename path, RegEntry c)])]> (disk w)) w).
Proof.
  intros Hf Habs Hd.
  assert (Hne : archive_path path <> path) by (intros E; by rewrite E in Habs).
  assert (Hp : str_empty (archive_path path) = false).
  { destruct (archive_path path) eqn:E; [| done].
    apply archive_path_empty in E. by subst path. }
  pose proof (split_archive_path path) as Hs.
  pose proof (is_dir_head _ _ _ Hf) as Hdir.
  pose proof (basename_no_sep path) as Hb.
  unfold _archive_file. fold (archive_path path) in *.
  destruct (posixpath.split path) as [head tail] eqn:Esp.
  change (posixpath.join head (re.sub ".tar.gz" tail)) with
    (posixpath.join (head, tail).1 (re.sub ".tar.gz" (head, tail).2)).
  rewrite <- Esp. fold (archive_path path).
  set (out := archive_path path) in *.
  assert (Hopen : os.write_file out (Raw "") w =
                  (Ok tt, set_disk (<[out := File (Raw "")]> (disk w)) w)).
  { destruct (disk w !! out) as [[c0|]|] eqn:Eo; [| done |].
    - by eapply write_file_over.
    - apply write_file_new; [done | done |]. by rewrite Hs. }
  unfold tarfile.gzopen.
  rewrite (bind_ok _ _ _ _ _ (bind_ok _ _ _ _ _ Hopen)).
  unfold tarfile.add. simpl.
  rewrite (bool_decide_eq_false_2 _ Habs). unfold_M. simpl.
  rewrite lookup_insert_ne by done. rewrite Hf. simpl.
  unfold tarfile.close_w, os.write_file. unfold_M. simpl.
  rewrite lookup_insert_eq. simpl.
  rewrite (lstrip_no_sep _ Hb).
  unfold set_disk; simpl; by rewrite insert_insert_eq.
Qed.

(** [upload_from_filename] never changes the local disk; when it returns,
    the file was a regular file and is now the object at [url]. *)
Lemma upload_from_filename_disk url filename w r w' :
  blob.upload_from_filename url filename w = (r, w') -> disk w' = disk w.
Proof.
  unfold blob.upload_from_filename, blob.send, os.read_file. unfold_M.
  destruct (disk w !! filename) as [[c|]|]; simpl; try by intros [= _ <-].
  destruct (net w); by intros [= _ <-].
Qed.

Lemma upload_from_filename_ok url filename w w' :
  blob.upload_from_filename url filename w = (Ok tt, w') ->
  exists c, disk w !! filename = Some (File c) /\
            bucket w' !! url = Some c /\ net w = None.
Proof.
  unfold blob.upload_from_filename, blob.send, os.read_file. unfold_M.
  destruct (disk w !! filename) as [[c|]|]; simpl; try done.
  destruct (net w); [done |]. intros [= <-]. exists c. simpl.
  by rewrite lookup_insert_eq.
Qed.

End Steps.

(** [os.makedirs] with one more unit of fuel. *)
Lemma makedirs_S (fuel : nat) (name : string) :
  os.makedirs (S fuel) name =
  (let '(head, tail) := posixpath.split name in
   let '(head, tail) :=
     if str_empty tail then posixpath.split head else (head, tail) in
   d <- get_disk ;;
   go <- (if negb (str_empty head) && negb (str_empty tail) && negb (known head d)
          then try_except (os.makedirs fuel head)
                 (fun e => match e with
                           | FileExistsError _ => Some (ret tt)
                           | _ => None
                           end) ;;;
               ret (negb (bool_decide (tail = ".")))
          else ret true) ;;
   if go then os.mkdir name 511 else ret tt).
Proof. done. Qed.

Lemma str_length_nonempty (s : string) :
  str_empty s = false -> (1 <= String.length s)%nat.
Proof. destruct s; simpl; [done | lia]. Qed.

(** The length of the name is fuel enough for [os.makedirs]: with more it
    does the same. *)
Lemma makedirs_fuel (fuel : nat) (name : string) (w : world) :
  (String.length name <= fuel)%nat ->
  os.makedirs (S fuel) name w = os.makedirs fuel name w.
Proof.
  revert name w. induction fuel as [|fuel IH]; intros name w Hl.
  - destruct name; [reflexivity | simpl in Hl; lia].
  - rewrite (makedirs_S (S fuel) name), (makedirs_S fuel name).
    pose proof (split_length name) as Hs.
    destruct (posixpath.split name) as [h t]. cbn [fst snd] in Hs.
    assert (Hh : forall h' t',
      (if str_empty t then posixpath.split h else (h, t)) = (h', t') ->
      str_empty t' = false -> (String.length h' <= fuel)%nat).
    { intros h' t' E Ht'. apply str_length_nonempty in Ht'.
      destruct (str_empty t).
      - pose proof (split_length h) as Hs'. rewrite E in Hs'.
        cbn [fst snd] in Hs'. lia.
      - injection E as <- <-. lia. }
    destruct (if str_empty t then posixpath.split h else (h, t)) as [h' t'].
    specialize (Hh h' t' eq_refl).
    unfold bind, get_disk, try_except. cbv iota beta.
    destruct (negb (str_empty h') && negb (str_empty t') && negb (known h' (disk w)))
      eqn:Ec; [| done].
    assert (Ht' : str_empty t' = false).
    { destruct (str_empty t'); [| done]. by rewrite andb_false_r in Ec. }
    by rewrite (IH h' w (Hh Ht')).
Qed.
(** ** upload_file *)

Section Upload.

Context {host : Host}.

(** [upload_file] as its steps: the transfer unit, the transfer under
    [remote_key], the two removals, the key. *)
Lemma upload_file_steps self file archive w :
  upload_file self file archive w =
  (tar <- make_transfer_unit self file archive ;;
   blob.upload_from_filename (remote_key self tar) tar ;;;
   b <- os.path_exists file ;;
   when b (os.remove file) ;;;
   b <- os.path_exists tar ;;
   when b (os.remove tar) ;;;
   ret (remote_key self tar)) w.
Proof.
  unfold upload_file, make_transfer_unit. unfold bind.
  destruct ((if archive then _archive_file self file else ret file) w)
    as [[tar|e] w1]; [| done].
  unfold remote_key, posixpath.basename, posixpath.split. done.
Qed.

Lemma make_transfer_unit_inv self file archive w tar w1 :
  make_transfer_unit self file archive w = (Ok tar, w1) ->
  tar = transfer_unit file archive /\
  if archive
  then exists ms, w1 = set_disk (<[tar := File (TarGz 5 ms)]> (disk w)) w
  else w1 = w.
Proof.
  unfold make_transfer_unit, transfer_unit. destruct archive.
  - apply archive_file_inv.
  - by intros [= <- <-].
Qed.

(** What a call that returns has done: the transfer unit was a regular file
    and was sent, and the disk has lost [file] and the transfer unit. *)
Lemma upload_file_inv self file archive w url w' :
  upload_file self file archive w = (Ok url, w') ->
  exists w1 c,
    make_transfer_unit self file archive w = (Ok (transfer_unit file archive), w1) /\
    url = remote_key self (transfer_unit file archive) /\
    disk w1 !! transfer_unit file archive = Some (File c) /\
    disk w' = delete (transfer_unit file archive) (delete file (disk w1)).
Proof.
  rewrite upload_file_steps.
  intros (tar & w1 & Ht & H)%bind_inv.
  destruct (make_transfer_unit_inv _ _ _ _ _ _ Ht) as [-> _].
  apply bind_inv in H as ([] & w2 & Hu & H).
  pose proof (upload_from_filename_disk _ _ _ _ _ Hu) as Hd.
  apply upload_from_filename_ok in Hu as (c & Hc & _ & _).
  exists w1, c. split; [done |].
  cut (url = remote_key self (transfer_unit file archive) /\
       disk w' = delete (transfer_unit file archive) (delete file (disk w1)));
    [intros [? ?]; auto |].
  rewrite exists_remove in H.
  assert (Hfin : forall w3, disk w3 = delete file (disk w1) ->
    (b <- os.path_exists (transfer_unit file archive) ;;
     when b (os.remove (transfer_unit file archive)) ;;;
     ret (remote_key self (transfer_unit file archive))) w3 = (Ok url, w') ->
    url = remote_key self (transfer_unit file archive) /\
    disk w' = delete (transfer_unit file archive) (delete file (disk w1))).
  { intros w3 H3. rewrite exists_remove.
    destruct (disk w3 !! transfer_unit file archive) as [[c'|]|] eqn:E;
      [| done |]; intros [= <- <-]; (split; [done |]); simpl; rewrite <- H3.
    - done.
    - by rewrite delete_id. }
  destruct (disk w2 !! file) as [[c'|]|] eqn:Ef; [| done |].
  - refine (Hfin _ _ H). simpl. by rewrite Hd.
  - refine (Hfin _ _ H). rewrite delete_id; [done | by rewrite <- Hd].
Qed.

End Upload.

Section UploadProperties.

Context {host : Host}.

Lemma delete_delete_insert (d : gmap string node) (p q : string) (x : node) :
  delete q (delete p (<[q := x]> d)) = delete q (delete p d).
Proof.
  apply map_eq. intros i.
  destruct (decide (i = q)) as [-> | Hq].
  - by rewrite !lookup_delete_eq.
  - rewrite !(lookup_delete_ne _ q i) by done.
    destruct (decide (i = p)) as [-> | Hp].
    + by rewrite !lookup_delete_eq.
    + rewrite !(lookup_delete_ne _ p i) by done. by rewrite lookup_insert_ne.
Qed.

(** C1. When [upload_file] returns, the local disk is what it was without
    the caller's file and without the transfer unit (the file itself, or
    with [archive] the temporary archive): both are gone, every other path
    is as before, and without [archive] the file deleted is a regular file
    that was there. *)
Theorem upload_file_removes_local self file archive w url w' :
  upload_file self file archive w = (Ok url, w') ->
  disk w' = delete (transfer_unit file archive) (delete file (disk w)) /\
  disk w' !! file = None /\
  disk w' !! transfer_unit file archive = None /\
  (forall p, p <> file -> p <> transfer_unit file archive ->
             disk w' !! p = disk w !! p) /\
  (archive = false -> exists c, disk w !! file = Some (File c)).
Proof.
  intros (w1 & c & Ht & _ & Hc & Hd)%upload_file_inv.
  apply make_transfer_unit_inv in Ht as [_ Hw1].
  assert (Heq : disk w' = delete (transfer_unit file archive) (delete file (disk w))).
  { rewrite Hd. destruct archive.
    - destruct Hw1 as [ms ->]. simpl. apply delete_delete_insert.
    - by rewrite Hw1. }
  split; [done |]. rewrite Heq. repeat split.
  - destruct (decide (file = transfer_unit file archive)) as [<- | Hne].
    + by rewrite lookup_delete_eq.
    + rewrite lookup_delete_ne by done. by rewrite lookup_delete_eq.
  - by rewrite lookup_delete_eq.
  - intros p Hp Hq. by rewrite !lookup_delete_ne.
  - intros ->. exists c. by rewrite Hw1 in Hc.
Qed.

(** The transfer unit of an archived upload is named by the pattern: its
    base name is the file's base name with the match replaced. *)
Lemma basename_archive_path (file : string) :
  posixpath.basename (archive_path file) =
  re.sub ".tar.gz" (posixpath.basename file).
Proof.
  unfold archive_path. apply basename_join.
  - apply split_head_stripped.
  - apply sub_no_sep; [done |]. apply (basename_no_sep file).
Qed.

(** C4, as the code has it. The key [upload_file] returns is the base name
    of the transfer unit when the folder is [None] or the empty string, and
    the folder, a slash and that base name when the folder is a string that
    is not empty; with [archive] that base name is the file's, with the
    match of the pattern replaced by [.tar.gz]. *)
Theorem upload_file_remote_key self file archive w url w' :
  upload_file self file archive w = (Ok url, w') ->
  match folder self with
  | None => url = posixpath.basename (transfer_unit file archive)
  | Some f =>
      if str_empty f
      then url = posixpath.basename (transfer_unit file archive)
      else url = f +:+ "/" +:+ posixpath.basename (transfer_unit file archive)
  end /\
  posixpath.basename (transfer_unit file archive) =
    (if archive then re.sub ".tar.gz" (posixpath.basename file)
     else posixpath.basename file).
Proof.
  intros (w1 & c & _ & -> & _)%upload_file_inv. split.
  - unfold remote_key. destruct (folder self) as [[|a f]|]; done.
  - destruct archive; [apply basename_archive_path | done].
Qed.

(** C6. When the transfer fails, [upload_file] fails with the same
    exception, and the disk is as the first step left it: nothing is
    removed, the caller's file is still there and, with [archive], so is
    the archive that was made. *)
Theorem upload_file_transfer_fails self file archive w tar w1 e w2 :
  make_transfer_unit self file archive w = (Ok tar, w1) ->
  blob.upload_from_filename (remote_key self tar) tar w1 = (Raise e, w2) ->
  upload_file self file archive w = (Raise e, w2) /\
  disk w2 = disk w1 /\
  (is_Some (disk w !! file) -> is_Some (disk w2 !! file)) /\
  (if archive
   then exists ms, disk w2 !! tar = Some (File (TarGz 5 ms))
   else disk w2 = disk w).
Proof.
  intros Ht Hu.
  pose proof (upload_from_filename_disk _ _ _ _ _ Hu) as Hd.
  split; [| split; [done |]].
  - rewrite upload_file_steps. rewrite (bind_ok _ _ _ _ _ Ht).
    by apply bind_raise.
  - rewrite Hd.
    apply make_transfer_unit_inv in Ht as [-> Hw1]. destruct archive.
    + destruct Hw1 as [ms ->]. unfold set_disk. cbn [disk]. split.
      * intros Hf.
        destruct (decide (transfer_unit file true = file)) as [-> | Hne].
        -- rewrite lookup_insert_eq. eauto.
        -- by rewrite lookup_insert_ne.
      * exists ms. by rewrite lookup_insert_eq.
    + by rewrite Hw1.
Qed.

(** C10. A client given the empty string as its folder uploads exactly as
    one given no folder, and the key it returns is the bare base name of
    the transfer unit, which does not start with a slash. *)
Theorem upload_file_empty_folder cred_path bucket_name file archive w :
  upload_file (__init__ cred_path bucket_name (Some "")) file archive w =
  upload_file (__init__ cred_path bucket_name None) file archive w /\
  forall url w',
    upload_file (__init__ cred_path bucket_name (Some "")) file archive w
      = (Ok url, w') ->
    url = posixpath.basename (transfer_unit file archive) /\
    startswith_sep url = false.
Proof.
  split; [done |].
  intros url w' (w1 & c & _ & -> & _)%upload_file_inv.
  split; [done |].
  apply startswith_no_sep. unfold remote_key. simpl. apply basename_no_sep.
Qed.

End UploadProperties.

(** The key of C4 as stated fails for the empty folder: the file
    [report.csv] is stored under [report.csv], not under [/report.csv]. *)
Lemma remote_key_as_stated_fails : ~ @remote_key_as_stated plain_host.
Proof.
  intros H.
  specialize (H empty_folder_client "report.csv" false report_world "report.csv"
                (upload_file (host := plain_host) empty_folder_client
                   "report.csv" false report_world).2).
  simpl in H. discriminate H. vm_compute. reflexivity.
Qed.

Lemma upload_file_removes_local_witness :
  disk (upload_file (host := plain_host) backups_client "report.csv" true
          report_world).2 !! "report.csv" = None.
Proof.
  apply (upload_file_removes_local (host := plain_host) backups_client
           "report.csv" true report_world "backups/report.tar.gz").
  vm_compute. reflexivity.
Defined.

Lemma upload_file_remote_key_witness :
  "backups/report.tar.gz" = "backups" +:+ "/" +:+ posixpath.basename "report.tar.gz".
Proof.
  apply (upload_file_remote_key (host := plain_host) backups_client
           "report.csv" true report_world "backups/report.tar.gz"
           (upload_file (host := plain_host) backups_client "report.csv" true
              report_world).2).
  vm_compute. reflexivity.
Defined.

Lemma upload_file_transfer_fails_witness :
  upload_file (host := plain_host) backups_client "report.csv" true offline_world
  = (Raise (TransportError "connection timed out"),
     log (Upload "backups/report.tar.gz")
       (set_disk (<["report.tar.gz" :=
                     File (TarGz 5 [("report.csv", RegEntry (Raw "a,b"))])]>
                   (disk offline_world)) offline_world)).
Proof.
  apply (upload_file_transfer_fails (host := plain_host) backups_client
           "report.csv" true offline_world "report.tar.gz"
           (set_disk (<["report.tar.gz" :=
                         File (TarGz 5 [("report.csv", RegEntry (Raw "a,b"))])]>
                       (disk offline_world)) offline_world)).
  - vm_compute. reflexivity.
  - vm_compute. reflexivity.
Defined.

Lemma upload_file_empty_folder_witness :
  "report.csv" = posixpath.basename (transfer_unit "report.csv" false) /\
  startswith_sep "report.csv" = false.
Proof.
  apply (proj2 (upload_file_empty_folder (host := plain_host) "cred.json"
                  "my-application.appspot.com" "report.csv" false report_world)
           "report.csv"
           (upload_file (host := plain_host) empty_folder_client "report.csv"
              false report_world).2).
  vm_compute. reflexivity.
Defined.

(** ** _extract *)








Lemma startswith_app (a b : string) :
  str_empty a = false -> startswith_sep (a +:+ b) = startswith_sep a.
Proof. by destruct a. Qed.


Lemma open_archive path w level ms :
  disk w !! path = Some (File (TarGz level ms)) ->
  tarfile.open path w =
    (Ok {| tarfile.tf_name := path; tarfile.tf_level := level;
           tarfile.tf_members := ms |}, w).
Proof.
  intros Hp. unfold tarfile.open, os.read_file. unfold_M. simpl. rewrite Hp.
  rewrite bool_decide_eq_false_2 by done. rewrite andb_false_r.
  unfold ret. by rewrite Hp.
Qed.

Lemma known_dir (d : string) (disk : gmap string node) :
  is_dir d disk = true ->
  negb (str_empty d) && negb (known d disk) = false.
Proof. intros H. unfold known. rewrite H. by destruct (str_empty d). Qed.

Section Extract.

(** C2. On an archive with no member or with more than one, [_extract]
    raises [FileNotFoundError('Cant recognize name of file')] and leaves
    the world as it was: nothing is extracted and the archive stays. *)
Theorem extract_rejects_shape self path w level ms :
  disk w !! path = Some (File (TarGz level ms)) ->
  length ms <> 1%nat ->
  _extract self path w =
    (Raise (FileNotFoundError "Cant recognize name of file"), w) /\
  disk (_extract self path w).2 !! path = Some (File (TarGz level ms)).
Proof.
  intros Hp Hn.
  assert (H : _extract self path w =
              (Raise (FileNotFoundError "Cant recognize name of file"), w)).
  { unfold _extract. destruct (posixpath.split path) as [head tail].
    rewrite (bind_ok _ _ _ _ _ (open_archive _ _ _ _ Hp)).
    unfold_M. simpl.
    destruct ms as [|m [|m' ms]]; done. }
  by rewrite H.
Qed.

(** [_extract] on an archive with one member, up to the extraction. *)
Lemma extract_steps self path w level name e :
  disk w !! path = Some (File (TarGz level [(name, e)])) ->
  _extract self path w =
  (tarfile.extract_member (posixpath.split path).1 (name, e) ;;;
   b <- os.path_exists path ;;
   when b (os.remove path) ;;;
   ret (posixpath.join (posixpath.split path).1 name)) w.
Proof.
  intros Hp. unfold _extract.
  destruct (posixpath.split path) as [head tail]. cbn [fst].
  rewrite (bind_ok _ _ _ _ _ (open_archive _ _ _ _ Hp)).
  cbn [tarfile.getmembers tarfile.tf_members].
  unfold tarfile.extractall, tarfile.close_r.
  cbn [tarfile.getmembers tarfile.tf_members tarfile.extract_members].
  unfold bind, ret.
  destruct (tarfile.extract_member head (name, e) w) as [[[]|?] ?]; done.
Qed.

(** A regular file written where its directory is there and no directory
    is in the way. *)
Lemma extract_member_regular dir name c w :
  str_empty name = false ->
  is_dir (posixpath.split (posixpath.join dir name)).1 (disk w) = true ->
  disk w !! posixpath.join dir name <> Some Dir ->
  tarfile.extract_member dir (name, RegEntry c) w =
    (Ok tt, set_disk (<[posixpath.join dir name := File c]> (disk w)) w).
Proof.
  intros Hn Hd Ht. unfold tarfile.extract_member. cbn [fst snd].
  set (target := posixpath.join dir name) in *.
  unfold bind at 1. unfold get_disk at 1. cbn [fst snd].
  rewrite (known_dir _ _ Hd). unfold when.
  rewrite (bind_ok _ _ _ tt w) by done.
  destruct (disk w !! target) as [[c0|]|] eqn:Et; [| done |].
  - by eapply write_file_over.
  - apply write_file_new; [done | | done].
    destruct target eqn:E; [| done].
    apply join_empty in E as [_ ->]. done.
Qed.

(** The run of [_extract] on an archive whose one member is a regular file
    that can be written where it goes. *)
Lemma extract_regular self path w level name c :
  disk w !! path = Some (File (TarGz level [(name, RegEntry c)])) ->
  str_empty name = false ->
  is_dir (posixpath.split (posixpath.join (posixpath.split path).1 name)).1
    (disk w) = true ->
  disk w !! posixpath.join (posixpath.split path).1 name <> Some Dir ->
  _extract self path w =
    (Ok (posixpath.join (posixpath.split path).1 name),
     set_disk (delete path
                 (<[posixpath.join (posixpath.split path).1 name := File c]>
                    (disk w))) w).
Proof.
  intros Hp Hn Hd Ht. rewrite (extract_steps _ _ _ _ _ _ Hp).
  rewrite (bind_ok _ _ _ _ _ (extract_member_regular _ _ c _ Hn Hd Ht)).
  rewrite exists_remove. cbn [disk set_disk].
  destruct (decide (posixpath.join (posixpath.split path).1 name = path))
    as [E | Hne].
  - rewrite E. by rewrite lookup_insert_eq.
  - rewrite lookup_insert_ne by done. by rewrite Hp.
Qed.




End Extract.

Lemma extract_rejects_shape_witness :
  _extract backups_client "out/two.tar.gz" archives_world =
    (Raise (FileNotFoundError "Cant recognize name of file"), archives_world).
Proof.
  apply (extract_rejects_shape backups_client
           "out/two.tar.gz" archives_world 5
           [("a.csv", RegEntry (Raw "1")); ("b.csv", RegEntry (Raw "2"))]).
  - vm_compute. reflexivity.
  - simpl. lia.
Defined.

(** ** download_file and delete_file *)

Lemma app_nonempty_neq (a b : string) : str_empty b = false -> a +:+ b <> a.
Proof.
  intros Hb E. rewrite <- (append_nil_r a) in E at 2.
  apply append_inv_head in E. by subst b.
Qed.

(** A name joined to a directory is not the directory. *)
Lemma join_neq (a b : string) :
  str_empty b = false -> has_sep b = false -> posixpath.join a b <> a.
Proof.
  intros Hb Hs. unfold posixpath.join. rewrite (startswith_no_sep b Hs).
  destruct (str_empty a || endswith_sep a); by apply app_nonempty_neq.
Qed.

(** [os.mkdir] makes the directory or changes nothing, and what it raises
    is not the SDK's. *)
Lemma mkdir_inv p mode w r w1 :
  os.mkdir p mode w = (r, w1) ->
  (r = Ok tt /\ disk w !! p = None /\
   w1 = set_disk (<[p := Dir]> (disk w)) w) \/
  (exists e, r = Raise e /\ blob.is_NotFound e = false /\ w1 = w).
Proof.
  unfold os.mkdir, cannot_create. unfold_M.
  destruct (disk w !! p) as [n|]; simpl.
  { intros [= <- <-]. right. by eexists. }
  destruct (negb (str_empty p) && is_dir p (disk w)).
  { intros [= <- <-]. right. by eexists. }
  destruct (str_empty p).
  { intros [= <- <-]. right. by eexists. }
  destruct (dir_status _ _ _); intros [= <- <-];
    [by left | right; by eexists | right; by eexists].
Qed.

Lemma write_file_raises p c w e w1 :
  os.write_file p c w = (Raise e, w1) -> blob.is_NotFound e = false.
Proof.
  unfold os.write_file, cannot_create. unfold_M.
  destruct (disk w !! p) as [[c0|]|]; simpl; try by intros [= <- <-].
  destruct (str_empty p); [by intros [= <- <-] |].
  destruct (dir_status _ _ _); by intros [= <- <-].
Qed.




Section Remote.

Context {host : Host}.

(** The SDK's download of a missing object raises, whatever the service and
    the disk are like; the bucket is as before, and with a reachable
    service and a file that could be opened the exception is [NotFound]. *)
Lemma download_to_filename_missing url filename w :
  bucket w !! url = None ->
  exists e w',
    blob.download_to_filename url filename w = (Raise e, w') /\
    bucket w' = bucket w /\
    (net w = None ->
     os.write_file filename (Raw "") w =
       (Ok tt, set_disk (<[filename := File (Raw "")]> (disk w)) w) ->
     e = blob.no_such_object url).
Proof.
  intros Hb. unfold blob.download_to_filename.
  destruct (os.write_file filename (Raw "") w) as [r w1] eqn:Ew.
  destruct (write_file_inv _ _ _ _ _ Ew) as [[-> ->] | (e & -> & ->)].
  2: { exists e, w. rewrite (bind_raise _ _ _ _ _ Ew).
       split; [done |]. split; [done |]. by intros _ [=]. }
  rewrite (bind_ok _ _ _ _ _ Ew).
  unfold blob.fetch, blob.send, os.write_file, os.remove. unfold_M. simpl.
  destruct (net w) as [e0|] eqn:En; simpl; rewrite ?Hb; simpl.
  all: try (destruct (blob.is_NotFound e0); simpl).
  all: destruct sdk_removes_partial; simpl; rewrite ?lookup_insert_eq; simpl.
  all: eexists _, _; (split; [done |]); by split.
Qed.

(** [download_file] on a key that is not in the bucket: it raises, never
    with the SDK's [NotFound]; with a reachable service, a directory that
    is there or can be made, and a file that can be opened in it, it raises
    [FileNotFoundError('File not found on server')]. *)
Lemma download_file_missing self url to_path extract w :
  bucket w !! url = None ->
  exists e w',
    download_file self url to_path extract w = (Raise e, w') /\
    blob.is_NotFound e = false /\
    bucket w' = bucket w /\
    (net w = None ->
     usable_dir to_path (disk w) ->
     stripped to_path = true ->
     proper_name (posixpath.basename url) ->
     is_dir (posixpath.join to_path (posixpath.basename url)) (disk w) = false ->
     e = FileNotFoundError "File not found on server").
Proof.
  intros Hb. unfold download_file.
  change (posixpath.split url)
    with ((posixpath.split url).1, posixpath.basename url).
  cbv iota beta.
  set (path := posixpath.join to_path (posixpath.basename url)).
  set (rest := fun w0 : world =>
    (try_except (blob.download_to_filename url path)
       (fun e => if blob.is_NotFound e
                 then Some (raise (FileNotFoundError "File not found on server"))
                 else None) ;;;
     extract_path <- (if extract then _extract self path else ret path) ;;
     ret extract_path) w0).
  assert (Hrest : forall w0, bucket w0 = bucket w ->
    exists e w', rest w0 = (Raise e, w') /\ blob.is_NotFound e = false /\
      bucket w' = bucket w /\
      (net w0 = None ->
       os.write_file path (Raw "") w0 =
         (Ok tt, set_disk (<[path := File (Raw "")]> (disk w0)) w0) ->
       e = FileNotFoundError "File not found on server")).
  { intros w0 Hb0. unfold rest.
    destruct (download_to_filename_missing url path w0)
      as (e & w1 & Hdl & Hb1 & He); [by rewrite Hb0 |].
    unfold bind at 1. unfold try_except at 1. rewrite Hdl.
    destruct (blob.is_NotFound e) eqn:Ee.
    - eexists _, _. split; [done |]. split; [done |].
      split; [by rewrite Hb1 |]. done.
    - exists e, w1. split; [done |]. split; [done |].
      split; [by rewrite Hb1 |].
      intros Hn Hw. rewrite (He Hn Hw) in Ee. done. }
  unfold os.path_exists. unfold bind at 1. unfold bind at 1.
  unfold get_disk at 1. unfold ret at 1. cbv iota beta.
  destruct (disk w !! to_path) as [n|] eqn:Et.
  - rewrite bool_decide_eq_true_2 by eauto. cbn [negb when].
    unfold bind at 1. unfold ret at 1. cbv iota beta.
    destruct (Hrest w eq_refl) as (e & w' & Hr & He & Hbw & Hfin).
    exists e, w'. fold (rest w). split; [done |]. split; [done |].
    split; [done |].
    intros Hn [Hne [Hd | (Hnone & _)]] Hs Hp Hdir; [| congruence].
    apply Hfin; [done |].
    destruct (disk w !! path) as [[c0|]|] eqn:Ep.
    + by eapply write_file_over.
    + apply is_dir_entry in Ep. congruence.
    + destruct Hp as (Hp1 & _ & _ & Hp2).
      apply write_file_new; [done | |].
      * destruct path eqn:E; [| done].
        apply join_empty in E as [-> _]. done.
      * unfold path. rewrite split_join by done. by apply is_dir_entry.
  - rewrite bool_decide_eq_false_2 by (intros [? ?]; done). cbn [negb when].
    unfold bind at 1.
    destruct (os.mkdir to_path 493 w) as [r w0] eqn:Em.
    destruct (mkdir_inv _ _ _ _ _ Em) as [(-> & _ & ->) | (e & -> & He & ->)].
    2: { exists e, w. split; [done |]. split; [done |]. split; [done |].
         intros _ Hu. exfalso.
         unfold os.mkdir in Em. unfold_M. rewrite Et in Em.
         destruct Hu as [Hne [Hd | (_ & Hi & Hu)]]; [congruence |].
         rewrite Hi, andb_false_r in Em.
         by rewrite (cannot_create_there _ _ _ Hne Hu) in Em. }
    destruct (Hrest (set_disk (<[to_path := Dir]> (disk w)) w) eq_refl)
      as (e & w' & Hr & He & Hbw & Hfin).
    exists e, w'. fold (rest (set_disk (<[to_path := Dir]> (disk w)) w)).
    split; [done |]. split; [done |]. split; [done |].
    intros Hn [Hne _] Hs Hp Hdir.
    apply Hfin; [done |]. cbn [disk set_disk].
    destruct Hp as (Hp1 & _ & _ & Hp2).
    assert (Hpt : path <> to_path) by by apply join_neq.
    destruct (disk w !! path) as [[c0|]|] eqn:Ep.
    + eapply write_file_over. cbn [disk set_disk].
      by rewrite lookup_insert_ne.
    + apply is_dir_entry in Ep. congruence.
    + apply write_file_new; cbn [disk set_disk].
      * by rewrite lookup_insert_ne.
      * destruct path eqn:E; [| done].
        apply join_empty in E as [-> _]. done.
      * unfold path. rewrite split_join by done.
        apply is_dir_entry. by rewrite lookup_insert_eq.
Qed.


(** C9. [delete_file] sends the one deletion request and nothing before it,
    does not touch the disk, and hands the SDK's outcome on as it is: a
    failure of the service, [NotFound] for a key that is not in the bucket,
    or the object removed; on the same missing key [download_file] raises
    something that is not [NotFound]. *)
Theorem delete_file_propagates self url w :
  sent (delete_file self url w).2 = (sent w ++ [Delete url])%list /\
  disk (delete_file self url w).2 = disk w /\
  (forall e, net w = Some e ->
     delete_file self url w = (Raise e, log (Delete url) w)) /\
  (net w = None -> bucket w !! url = None ->
     delete_file self url w
       = (Raise (blob.no_such_object url), log (Delete url) w) /\
     forall to_path extract, exists e w',
       download_file self url to_path extract w = (Raise e, w') /\
       blob.is_NotFound e = false) /\
  (net w = None -> forall c, bucket w !! url = Some c ->
     delete_file self url w
       = (Ok tt, set_bucket (delete url (bucket w)) (log (Delete url) w))).
Proof.
  unfold delete_file, blob.delete, blob.send. simpl.
  split; [| split; [| split; [| split]]].
  - destruct (net w); [done |]. by destruct (bucket w !! url).
  - destruct (net w); [done |]. by destruct (bucket w !! url).
  - by intros e ->.
  - intros Hn Hb. split; [by rewrite Hn, Hb |].
    intros to_path extract.
    destruct (download_file_missing self url to_path extract w Hb)
      as (e & w' & ? & ? & _); eauto.
  - intros Hn c Hb. by rewrite Hn, Hb.
Qed.

End Remote.


Lemma delete_file_propagates_witness :
  delete_file backups_client "backups/report.tar.gz" report_world
  = (Raise (blob.no_such_object "backups/report.tar.gz"),
     log (Delete "backups/report.tar.gz") report_world).
Proof.
  apply (delete_file_propagates (host := plain_host) backups_client
           "backups/report.tar.gz" report_world).
  - reflexivity.
  - vm_compute. reflexivity.
Defined.

(** ** _archive_file, and the round trip with _extract *)

Section Archive.

Context {host : Host}.

(** When the pattern leaves the name as it is, the archive is opened over
    the file: the file is emptied, [add] skips it as the archive itself,
    and what is left under the name is an archive with no member. *)
Lemma archive_file_onto_itself self path c w :
  archive_path path = path ->
  disk w !! path = Some (File c) ->
  _archive_file self path w =
    (Ok path, set_disk (<[path := File (TarGz 5 [])]> (disk w)) w).
Proof.
  unfold archive_path, _archive_file.
  destruct (posixpath.split path) as [head tail]. cbn [fst snd].
  intros -> Hd.
  unfold tarfile.gzopen.
  rewrite (bind_ok _ _ _ _ _ (bind_ok _ _ _ _ _ (write_file_over _ _ _ _ Hd))).
  unfold tarfile.add, tarfile.close_w, os.write_file. unfold_M.
  simpl.
  rewrite bool_decide_eq_true_2 by done; simpl;
    rewrite lookup_insert_eq; simpl;
    unfold set_disk; simpl; by rewrite insert_insert_eq.
Qed.

(** C7, on a name the pattern does not match. The file [notes.txt~],
    whatever it holds, is archived onto itself: the call returns the file's
    own path, under which there is now an archive with no member, and what
    the file held is lost. *)
Theorem archive_file_unmatched_name self c :
  re.search "notes.txt~" = false /\
  archive_path "notes.txt~" = "notes.txt~" /\
  _archive_file self "notes.txt~"
    {| disk := {[ "notes.txt~" := File c ]}; bucket := ∅; net := None; sent := [] |}
  = (Ok "notes.txt~",
     {| disk := {[ "notes.txt~" := File (TarGz 5 []) ]};
        bucket := ∅; net := None; sent := [] |}).
Proof.
  split; [done |]. split; [done |].
  rewrite (archive_file_onto_itself _ _ c).
  - unfold set_disk. simpl. by rewrite insert_singleton_eq.
  - done.
  - simpl. by rewrite lookup_singleton_eq.
Qed.

Lemma conventional_archive_elsewhere (path head : string) :
  conventional (posixpath.basename path) ->
  stripped head = true ->
  posixpath.basename (archive_path path) <> posixpath.basename path /\
  archive_path path <> path /\
  archive_path path <> posixpath.join head (posixpath.basename path).
Proof.
  intros (stem & ext & Hn & He & Hw) Hh.
  assert (H : posixpath.basename (archive_path path) <> posixpath.basename path).
  { rewrite basename_archive_path, Hn, (sub_conventional _ _ _ He Hw).
    by apply sub_conventional_changes. }
  split; [done |]. split.
  - intros Heq. by rewrite Heq in H.
  - intros Heq. rewrite Heq in H. rewrite basename_join in H; [done.. |].
    apply basename_no_sep.
Qed.

(** A file with a conventional extension is not its own archive, however
    the two paths are written. *)
Lemma conventional_abspath (path : string) :
  conventional (posixpath.basename path) ->
  os.path_abspath path <> os.path_abspath (archive_path path).
Proof.
  intros Hconv.
  destruct (conventional_archive_elsewhere path "" Hconv eq_refl) as (Hne & _).
  apply abspath_differ; [| | done].
  - apply conventional_proper; [done | apply basename_no_sep].
  - apply conventional_proper; [| apply basename_no_sep].
    rewrite basename_archive_path.
    destruct Hconv as (stem & ext & -> & He & Hw).
    rewrite (sub_conventional _ _ _ He Hw).
    apply conventional_archive_name.
Qed.

(** The archive of a file is that of the join of its directory and its
    base name. *)
Lemma archive_path_join (path : string) :
  archive_path (posixpath.join (posixpath.split path).1 (posixpath.basename path))
  = archive_path path.
Proof.
  unfold archive_path at 1.
  rewrite split_join; [done | apply split_head_stripped | apply basename_no_sep].
Qed.

(** C8. A regular file [F] whose name has a conventional extension is
    archived, the archive extracted, and what was extracted archived again:
    the three calls return; the path the extraction returns is the join of
    the directory of [F] and its base name, and its base name is that of
    [F]; the file at that path holds what [F] held, after the extraction
    and after the second archiving, and the archive made last holds it as
    its one member. No directory is to stand at the archive's path or at
    that of the extracted file. *)
Theorem archive_extract_roundtrip self path c w :
  conventional (posixpath.basename path) ->
  disk w !! path = Some (File c) ->
  is_dir (archive_path path) (disk w) = false ->
  is_dir (posixpath.join (posixpath.split path).1 (posixpath.basename path))
    (disk w) = false ->
  exists a e p w1 w2 w3,
    _archive_file self path w = (Ok a, w1) /\
    _extract self a w1 = (Ok e, w2) /\
    _archive_file self e w2 = (Ok p, w3) /\
    e = posixpath.join (posixpath.split path).1 (posixpath.basename path) /\
    posixpath.basename e = posixpath.basename path /\
    disk w2 !! e = Some (File c) /\
    disk w3 !! e = Some (File c) /\
    disk w3 !! p = Some (File (TarGz 5 [(posixpath.basename path, RegEntry c)])).
Proof.
  intros Hconv Hf Ha%not_dir_entry Ht%not_dir_entry.
  pose proof (split_head_stripped path) as Hh.
  pose proof (basename_no_sep path) as Hb.
  pose proof (conventional_abspath path Hconv) as Habs.
  pose proof (archive_path_join path) as Hj.
  destruct (conventional_archive_elsewhere path _ Hconv Hh) as (_ & Hne1 & Hne2).
  assert (Hname : str_empty (posixpath.basename path) = false)
    by (destruct Hconv as (stem & ext & -> & _); by destruct stem).
  pose proof (split_archive_path path) as Hsa.
  assert (Hst : posixpath.split
                  (posixpath.join (posixpath.split path).1 (posixpath.basename path))
                = ((posixpath.split path).1, posixpath.basename path))
    by by apply split_join.
  assert (Hbt : posixpath.basename
                  (posixpath.join (posixpath.split path).1 (posixpath.basename path))
                = posixpath.basename path) by by apply basename_join.
  set (head := (posixpath.split path).1) in *.
  set (tail := posixpath.basename path) in *.
  set (target := posixpath.join head tail) in *.
  set (A := archive_path path) in *.
  set (w1 := set_disk (<[A := File (TarGz 5 [(tail, RegEntry c)])]> (disk w)) w).
  set (w2 := set_disk (delete A (<[target := File c]> (disk w1))) w1).
  assert (H1 : _archive_file self path w = (Ok A, w1))
    by by apply archive_file_regular.
  assert (H2 : _extract self A w1 = (Ok target, w2)).
  { pose proof (extract_regular self A w1 5 tail c) as H.
    rewrite Hsa in H. cbn [fst] in H. apply H.
    - unfold w1. cbn [disk set_disk]. by rewrite lookup_insert_eq.
    - done.
    - fold target. rewrite Hst. cbn [fst].
      apply (is_dir_head _ path (File c)).
      unfold w1. cbn [disk set_disk]. by rewrite lookup_insert_ne.
    - unfold w1. cbn [disk set_disk]. by rewrite lookup_insert_ne. }
  assert (Hw2 : disk w2 !! target = Some (File c)).
  { unfold w2. cbn [disk set_disk]. rewrite lookup_delete_ne by done.
    by rewrite lookup_insert_eq. }
  pose proof (archive_file_regular self target c w2 Hw2) as H3.
  rewrite Hbt, Hj in H3.
  eexists A, target, A, w1, w2, _.
  split; [exact H1 |]. split; [exact H2 |]. split.
  { apply H3.
    - pose proof (conventional_abspath target) as Hc.
      rewrite Hj in Hc. apply Hc. by rewrite Hbt.
    - unfold w2. cbn [disk set_disk]. by rewrite lookup_delete_eq. }
  split; [done |]. split; [done |]. split; [done |].
  cbn [disk set_disk]. split.
  - rewrite lookup_insert_ne by done. done.
  - by rewrite lookup_insert_eq.
Qed.

End Archive.

Lemma archive_extract_roundtrip_witness :
  exists a e p w1 w2 w3,
    _archive_file (host := plain_host) backups_client "report.csv" report_world
      = (Ok a, w1) /\
    _extract backups_client a w1 = (Ok e, w2) /\
    _archive_file (host := plain_host) backups_client e w2 = (Ok p, w3) /\
    e = "report.csv" /\
    posixpath.basename e = "report.csv" /\
    disk w2 !! e = Some (File (Raw "a,b")) /\
    disk w3 !! e = Some (File (Raw "a,b")) /\
    disk w3 !! p = Some (File (TarGz 5 [("report.csv", RegEntry (Raw "a,b"))])).
Proof.
  apply (archive_extract_roundtrip (host := plain_host) backups_client
           "report.csv" (Raw "a,b") report_world).
  - exists "report", "csv". repeat split; reflexivity.
  - reflexivity.
  - vm_compute. reflexivity.
  - vm_compute. reflexivity.
Defined.
(** ** What a computation leaves alone *)

Lemma keeps_ret {A} R `{!Reflexive R} (a : A) : keeps R (ret a).
Proof. by intros w r w' [= <- <-]. Qed.

Lemma keeps_raise {A} R `{!Reflexive R} (e : exn) : keeps R (@raise A e).
Proof. by intros w r w' [= <- <-]. Qed.

Lemma keeps_bind {A B} R `{!Reflexive R, !Transitive R}
    (m : M A) (k : A -> M B) :
  keeps R m -> (forall a, keeps R (k a)) -> keeps R (bind m k).
Proof.
  intros Hm Hk w r w'. unfold bind.
  destruct (m w) as [[a|e] w1] eqn:E.
  - intros H. etrans; [by eapply Hm | by eapply Hk].
  - intros [= <- <-]. by eapply Hm.
Qed.

Lemma keeps_when R `{!Reflexive R} (b : bool) (m : M unit) :
  keeps R m -> keeps R (when b m).
Proof. destruct b; [done |]. intros _. by apply keeps_ret. Qed.

Lemma keeps_try_except {A} R `{!Reflexive R, !Transitive R}
    (m : M A) (h : exn -> option (M A)) :
  keeps R m -> (forall e k, h e = Some k -> keeps R k) ->
  keeps R (try_except m h).
Proof.
  intros Hm Hh w r w'. unfold try_except.
  destruct (m w) as [[a|e] w1] eqn:E.
  - intros [= <- <-]. by eapply Hm.
  - destruct (h e) as [k|] eqn:Ek.
    + intros H. etrans; [by eapply Hm | by eapply Hh].
    + intros [= <- <-]. by eapply Hm.
Qed.

#[local] Instance remote_same_refl : Reflexive remote_same.
Proof. by intros w. Qed.

#[local] Instance remote_same_trans : Transitive remote_same.
Proof.
  intros w1 w2 w3 (? & ? & ?) (? & ? & ?). repeat split; congruence.
Qed.

#[local] Instance disk_same_outside_refl S : Reflexive (disk_same_outside S).
Proof. by intros w p. Qed.

#[local] Instance disk_same_outside_trans S : Transitive (disk_same_outside S).
Proof.
  intros w1 w2 w3 H12 H23 p Hp. rewrite H23 by done. by apply H12.
Qed.

(** A computation that only looks at the disk, or puts a new one. *)
Lemma keeps_remote_get_disk : keeps remote_same get_disk.
Proof. by intros w r w' [= <- <-]. Qed.

Lemma keeps_remote_put_disk d : keeps remote_same (put_disk d).
Proof. by intros w r w' [= <- <-]. Qed.

Ltac keeps_local :=
  intros ? ? ?; unfold_M; simpl;
  repeat case_match; intros [= <- <-]; done.

Lemma keeps_remote_path_exists p : keeps remote_same (os.path_exists p).
Proof. unfold os.path_exists. keeps_local. Qed.

Lemma keeps_remote_remove p : keeps remote_same (os.remove p).
Proof. unfold os.remove. keeps_local. Qed.

Lemma keeps_remote_mkdir p mode : keeps remote_same (os.mkdir p mode).
Proof. unfold os.mkdir. keeps_local. Qed.

Lemma keeps_remote_write_file p c : keeps remote_same (os.write_file p c).
Proof. unfold os.write_file. keeps_local. Qed.

Lemma keeps_remote_read_file p : keeps remote_same (os.read_file p).
Proof. unfold os.read_file. keeps_local. Qed.

Lemma keeps_remote_makedirs fuel name :
  keeps remote_same (os.makedirs fuel name).
Proof.
  revert name. induction fuel as [|fuel IH]; intros name; cbn [os.makedirs];
    destruct (posixpath.split name) as [head tail];
    destruct (if str_empty tail then posixpath.split head else (head, tail))
      as [head' tail'];
    (apply keeps_bind; try apply _; [apply keeps_remote_get_disk |]);
    intros d;
    (apply keeps_bind; try apply _;
     [| intros []; [apply keeps_remote_mkdir | by apply keeps_ret]]);
    (destruct (negb (str_empty head') && negb (str_empty tail')
               && negb (known head' d)); [| by apply keeps_ret]).
  - by apply keeps_ret.
  - apply keeps_bind; try apply _; [| intros _; by apply keeps_ret].
    apply keeps_try_except; try apply _; [apply IH |].
    intros e k. destruct e; intros [= <-]. by apply keeps_ret.
Qed.

Lemma keeps_remote_extract_member path m :
  keeps remote_same (tarfile.extract_member path m).
Proof.
  unfold tarfile.extract_member.
  apply keeps_bind; try apply _; [apply keeps_remote_get_disk |]. intros d.
  apply keeps_bind; try apply _;
    [apply keeps_when; [apply _ | apply keeps_remote_makedirs] |].
  intros _. destruct m.2.
  - apply keeps_remote_write_file.
  - apply keeps_try_except; try apply _; [apply keeps_remote_mkdir |].
    intros e k. destruct e; intros [= <-]. by apply keeps_ret.
Qed.

Lemma keeps_remote_extract_members path ms :
  keeps remote_same (tarfile.extract_members path ms).
Proof.
  induction ms as [|m ms IH]; [by apply keeps_ret |].
  apply keeps_bind; try apply _; [apply keeps_remote_extract_member | done].
Qed.

Section Frames.

Context {host : Host}.

Lemma keeps_remote_archive_file self path :
  keeps remote_same (_archive_file self path).
Proof.
  unfold _archive_file. destruct (posixpath.split path) as [head tail].
  unfold tarfile.gzopen, tarfile.add, tarfile.close_w.
  repeat (apply keeps_bind; try apply _; [| intros ?]); keeps_local.
Qed.

Lemma keeps_remote_extract self path :
  keeps remote_same (_extract self path).
Proof.
  unfold _extract. destruct (posixpath.split path) as [head tail].
  apply keeps_bind; try apply _.
  { unfold tarfile.open.
    apply keeps_bind; try apply _; [apply keeps_remote_get_disk |]. intros d.
    apply keeps_bind; try apply _;
      [apply keeps_when; [apply _ | by apply keeps_raise] |]. intros _.
    apply keeps_bind; try apply _; [apply keeps_remote_read_file |].
    intros [b|l ms]; by (apply keeps_ret || apply keeps_raise). }
  intros tf. apply keeps_bind; try apply _.
  { repeat case_match; by (apply keeps_ret || apply keeps_raise). }
  intros name. apply keeps_bind; try apply _;
    [apply keeps_remote_extract_members |].
  intros _. apply keeps_bind; try apply _; [by apply keeps_ret |].
  intros _. apply keeps_bind; try apply _; [apply keeps_remote_path_exists |].
  intros b. apply keeps_bind; try apply _;
    [apply keeps_when; [apply _ | apply keeps_remote_remove] |].
  intros _. by apply keeps_ret.
Qed.

(** X1. The two helpers work on the local disk only: whatever
    [_archive_file] or [_extract] returns or raises, the bucket, the state
    of the service and the requests sent are as they were. *)
Theorem helpers_keep_remote self path :
  keeps remote_same (_archive_file self path) /\
  keeps remote_same (_extract self path).
Proof. split; [apply keeps_remote_archive_file | apply keeps_remote_extract]. Qed.

(** [_archive_file] writes at the archive's path and nowhere else. *)
Lemma archive_file_frame self path w r w' :
  _archive_file self path w = (r, w') ->
  forall q, q <> archive_path path -> disk w' !! q = disk w !! q.
Proof.
  unfold _archive_file, archive_path.
  destruct (posixpath.split path) as [head tail]. cbn [fst snd].
  set (out := posixpath.join head (re.sub ".tar.gz" tail)).
  intros H q Hq. unfold tarfile.gzopen in H. revert H.
  unfold bind at 1. unfold bind at 1.
  destruct (os.write_file out (Raw "") w) as [r0 w0] eqn:Ew.
  destruct (write_file_inv _ _ _ _ _ Ew) as [[-> ->] | (e & -> & ->)];
    [| by intros [= <- <-]].
  unfold ret at 1. cbv iota beta. unfold bind at 1.
  destruct (tarfile.add _ path (posixpath.basename path) _) as [r1 w1] eqn:Ea.
  apply add_inv in Ea as [-> Htar].
  destruct r1 as [tar1|e].
  2: { intros [= <- <-]. cbn [disk set_disk]. by rewrite lookup_insert_ne. }
  destruct (Htar _ eq_refl) as [Hn _]. cbn [tarfile.tf_name] in Hn.
  unfold bind at 1. unfold tarfile.close_w. rewrite Hn.
  destruct (os.write_file out (TarGz _ _) _) as [r2 w2] eqn:Ec.
  destruct (write_file_inv _ _ _ _ _ Ec) as [[-> ->] | (e & -> & ->)];
    intros [= <- <-]; cbn [disk set_disk];
    by rewrite ?lookup_insert_ne.
Qed.

(** X2. [_archive_file] writes the archive and nothing else: whatever it
    returns or raises, every path that is not a way of writing the
    archive's path, the input among them when it is another file, is as it
    was. *)
Theorem archive_file_writes_archive_only self path :
  keeps (disk_same_outside
           (fun q => os.path_abspath q = os.path_abspath (archive_path path)))
    (_archive_file self path).
Proof.
  intros w r w' H q Hq. apply (archive_file_frame _ _ _ _ _ H).
  intros ->. by apply Hq.
Qed.

End Frames.

(** ** More on _archive_file *)

Lemma word_not_newline (c : ascii) : is_word c = true -> is_newline c = false.
Proof.
  intros Hw. destruct (is_newline c) eqn:E; [| done].
  apply Ascii.eqb_eq in E. subst c. done.
Qed.

(** A name of two or more word characters is matched whole. *)
Lemma sub_all_word (repl t : string) :
  all_word t = true -> (2 <= String.length t)%nat -> re.sub repl t = repl.
Proof.
  destruct t as [|c [|c' t]]; [simpl; lia | simpl; lia |].
  intros Hw _.
  change (all_word (String c (String c' t)))
    with (is_word c && all_word (String c' t)) in Hw.
  apply andb_true_iff in Hw as [Hc Ht].
  change (re.sub repl (String c (String c' t)))
    with (match re.match_here (String c (String c' t)) with
          | Some (_, rest) => repl +:+ rest
          | None => String c (re.sub repl (String c' t))
          end).
  unfold re.match_here.
  rewrite (word_not_newline c Hc), (word_span_all (String c' t) Ht).
  simpl. apply append_nil_r.
Qed.

Section MoreArchive.

Context {host : Host}.



(** X5. When the pattern matches nowhere in the base name of a regular
    file, and the path is one that [split] and [join] give back, the
    archive is written over the file itself: the call returns the file's
    own path, which now holds an archive with no member, whatever the file
    held. *)
Theorem archive_file_unmatched self path c w :
  re.search (posixpath.basename path) = false ->
  str_empty (posixpath.basename path) = false ->
  posixpath.join (posixpath.split path).1 (posixpath.basename path) = path ->
  disk w !! path = Some (File c) ->
  _archive_file self path w =
    (Ok path, set_disk (<[path := File (TarGz 5 [])]> (disk w)) w).
Proof.
  intros Hs _ Hj Hd. apply (archive_file_onto_itself _ _ c); [| done].
  unfold archive_path. rewrite split_tail.
  by rewrite (sub_unmatched _ _ Hs).
Qed.

End MoreArchive.

Section ArchiveNames.

Context {host : Host}.

(** X6. The archive's name forgets the extension: two files of one
    directory whose names differ in the extension only are archived at the
    same path. *)
Theorem archive_file_forgets_extension self p1 p2 stem ext1 ext2 w1 w2 a1 a2 w1' w2' :
  (posixpath.split p1).1 = (posixpath.split p2).1 ->
  posixpath.basename p1 = stem +:+ String "."%char ext1 ->
  posixpath.basename p2 = stem +:+ String "."%char ext2 ->
  str_empty ext1 = false -> all_word ext1 = true ->
  str_empty ext2 = false -> all_word ext2 = true ->
  _archive_file self p1 w1 = (Ok a1, w1') ->
  _archive_file self p2 w2 = (Ok a2, w2') ->
  a1 = a2.
Proof.
  intros Hh H1 H2 He1 Hw1 He2 Hw2 [-> _]%archive_file_inv [-> _]%archive_file_inv.
  unfold archive_path. rewrite !split_tail, Hh, H1, H2.
  by rewrite !sub_conventional.
Qed.

(** X7. A base name of two or more word characters, with no extension, is
    replaced whole: the archive of any such file is [.tar.gz] in the file's
    directory. *)
Theorem archive_file_without_extension self path w a w' :
  all_word (posixpath.basename path) = true ->
  (2 <= String.length (posixpath.basename path))%nat ->
  _archive_file self path w = (Ok a, w') ->
  a = posixpath.join (posixpath.split path).1 ".tar.gz".
Proof.
  intros Hw Hl [-> _]%archive_file_inv. unfold archive_path. rewrite split_tail.
  by rewrite sub_all_word.
Qed.

End ArchiveNames.



Lemma archive_file_unmatched_witness :
  _archive_file (host := plain_host) backups_client "data/x"
    {| disk := {[ "data/x" := File (Raw "a,b") ]};
       bucket := ∅; net := None; sent := [] |}
  = (Ok "data/x",
     set_disk (<["data/x" := File (TarGz 5 [])]>
                 ({[ "data/x" := File (Raw "a,b") ]} : gmap string node))
       {| disk := {[ "data/x" := File (Raw "a,b") ]};
          bucket := ∅; net := None; sent := [] |}).
Proof.
  apply (archive_file_unmatched (host := plain_host) backups_client "data/x"
           (Raw "a,b")).
  - reflexivity.
  - reflexivity.
  - reflexivity.
  - reflexivity.
Defined.

Lemma archive_file_forgets_extension_witness :
  "data/report.tar.gz" = "data/report.tar.gz".
Proof.
  apply (archive_file_forgets_extension (host := plain_host) backups_client
           "data/report.csv" "data/report.txt" "report" "csv" "txt"
           {| disk := {[ "data/report.csv" := File (Raw "a,b") ]};
              bucket := ∅; net := None; sent := [] |}
           {| disk := {[ "data/report.txt" := File (Raw "a b") ]};
              bucket := ∅; net := None; sent := [] |}
           "data/report.tar.gz" "data/report.tar.gz"
           (_archive_file (host := plain_host) backups_client "data/report.csv"
              {| disk := {[ "data/report.csv" := File (Raw "a,b") ]};
                 bucket := ∅; net := None; sent := [] |}).2
           (_archive_file (host := plain_host) backups_client "data/report.txt"
              {| disk := {[ "data/report.txt" := File (Raw "a b") ]};
                 bucket := ∅; net := None; sent := [] |}).2).
  - reflexivity.
  - reflexivity.
  - reflexivity.
  - reflexivity.
  - reflexivity.
  - reflexivity.
  - reflexivity.
  - vm_compute. reflexivity.
  - vm_compute. reflexivity.
Defined.

Lemma archive_file_without_extension_witness :
  "data/.tar.gz" = posixpath.join (posixpath.split "data/README").1 ".tar.gz".
Proof.
  apply (archive_file_without_extension (host := plain_host) backups_client
           "data/README"
           {| disk := {[ "data/README" := File (Raw "read me") ]};
              bucket := ∅; net := None; sent := [] |}
           "data/.tar.gz"
           (_archive_file (host := plain_host) backups_client "data/README"
              {| disk := {[ "data/README" := File (Raw "read me") ]};
                 bucket := ∅; net := None; sent := [] |}).2).
  - reflexivity.
  - simpl. lia.
  - vm_compute. reflexivity.
Defined.

(** ** More on _extract *)


(** X9. When the one member of the archive is a regular file and a
    directory stands where it is to be written, [_extract] raises
    [IsADirectoryError] for that path and changes nothing: the archive is
    not removed. *)
Theorem extract_blocked_by_directory self path w level name c :
  disk w !! path = Some (File (TarGz level [(name, RegEntry c)])) ->
  disk w !! posixpath.join (posixpath.split path).1 name = Some Dir ->
  _extract self path w =
    (Raise (IsADirectoryError (posixpath.join (posixpath.split path).1 name)), w).
Proof.
  intros Hp Ht. rewrite (extract_steps _ _ _ _ _ _ Hp).
  apply bind_raise.
  unfold tarfile.extract_member. cbn [fst snd].
  unfold bind at 1. unfold get_disk at 1. cbn [fst snd].
  rewrite (known_dir _ _ (is_dir_head _ _ _ Ht)). unfold when.
  rewrite (bind_ok _ _ _ tt w) by done.
  by apply write_file_dir.
Qed.


Lemma extract_blocked_by_directory_witness :
  _extract backups_client "out/report.tar.gz"
    (set_disk (<["out/report.csv" := Dir]> (disk archives_world)) archives_world)
  = (Raise (IsADirectoryError (posixpath.join "out" "report.csv")),
     set_disk (<["out/report.csv" := Dir]> (disk archives_world)) archives_world).
Proof.
  apply (extract_blocked_by_directory backups_client "out/report.tar.gz"
           (set_disk (<["out/report.csv" := Dir]> (disk archives_world))
              archives_world) 5 "report.csv" (Raw "a,b")).
  - vm_compute. reflexivity.
  - vm_compute. reflexivity.
Defined.
(** ** A member in a directory of its own *)

Lemma endswith_app_name (a d : string) :
  str_empty d = false -> has_sep d = false -> endswith_sep (a +:+ d) = false.
Proof.
  intros Hd Hs. induction a as [|c a IH].
  - simpl. clear Hd. induction d as [|c d IHd]; [done |].
    simpl in Hs. apply orb_false_iff in Hs as [Hc Hs].
    destruct d; [done | by apply IHd].
  - simpl. destruct (a +:+ d) eqn:E; [| exact IH].
    destruct a; [| done]. simpl in E. by subst d.
Qed.

Lemma rstrip_id (s : string) : endswith_sep s = false -> rstrip_sep s = s.
Proof.
  induction s as [|c s IH]; [done |]. intros He. simpl.
  destruct s as [|c' s].
  - simpl in *. by rewrite He.
  - rewrite IH by done. done.
Qed.

(** Joining a directory and a name in it, one after the other. *)
Lemma join_join (head dir file : string) :
  proper_name dir -> proper_name file ->
  posixpath.join head (dir +:+ "/" +:+ file)
  = posixpath.join (posixpath.join head dir) file /\
  endswith_sep (posixpath.join head dir) = false /\
  str_empty (posixpath.join head dir) = false.
Proof.
  intros (Hd1 & _ & _ & Hd2) (Hf1 & _ & _ & Hf2).
  assert (Hrel : startswith_sep (dir +:+ "/" +:+ file) = false).
  { rewrite startswith_app by done. by apply startswith_no_sep. }
  assert (He : endswith_sep (posixpath.join head dir) = false).
  { unfold posixpath.join. rewrite (startswith_no_sep dir Hd2).
    destruct (str_empty head || endswith_sep head).
    - by apply endswith_app_name.
    - replace (head +:+ String sep dir) with ((head +:+ "/") +:+ dir)
        by (by rewrite append_assoc).
      by apply endswith_app_name. }
  assert (Hne : str_empty (posixpath.join head dir) = false).
  { destruct (posixpath.join head dir) eqn:E; [| done].
    apply join_empty in E as [_ ->]. done. }
  split; [| done].
  rewrite (join_plain (posixpath.join head dir) file Hne He
             (startswith_no_sep file Hf2)).
  unfold posixpath.join. rewrite Hrel, (startswith_no_sep dir Hd2).
  destruct (str_empty head || endswith_sep head); by rewrite !append_assoc.
Qed.

(** X25. When the one member of the archive is a regular file stored as
    [dir/file], and nothing is at [dir] in the directory of the archive,
    [_extract] makes that directory, writes the file in it, removes the
    archive and returns the path of the file; nothing else is changed. *)
Theorem extract_makes_directory self path w level dir file c :
  disk w !! path
    = Some (File (TarGz level [(dir +:+ "/" +:+ file, RegEntry c)])) ->
  proper_name dir -> proper_name file ->
  known (posixpath.join (posixpath.split path).1 dir) (disk w) = false ->
  _extract self path w =
    (Ok (posixpath.join (posixpath.join (posixpath.split path).1 dir) file),
     set_disk
       (delete path
          (<[posixpath.join (posixpath.join (posixpath.split path).1 dir) file
             := File c]>
             (<[posixpath.join (posixpath.split path).1 dir := Dir]> (disk w))))
       w).
Proof.
  intros Hp Hd Hf Hk.
  destruct (join_join (posixpath.split path).1 dir file Hd Hf) as (Hj & He & Hne).
  pose proof (split_head_stripped path) as Hs.
  pose proof (is_dir_head _ _ _ Hp) as Hhead.
  rewrite (extract_steps _ _ _ _ _ _ Hp). rewrite Hj.
  set (head := (posixpath.split path).1) in *.
  set (U := posixpath.join head dir) in *.
  set (target := posixpath.join U file) in *.
  assert (HsU : stripped U = true)
    by (unfold stripped; rewrite He; by rewrite orb_true_r).
  assert (Hst : posixpath.split target = (U, file))
    by (apply split_join; [done | apply Hf]).
  assert (HsplitU : posixpath.split U = (head, dir))
    by (apply split_join; [done | apply Hd]).
  unfold known in Hk. rewrite Hne in Hk. cbn [negb andb] in Hk.
  apply orb_false_iff in Hk as [HUdir HUnone].
  apply bool_decide_eq_false in HUnone.
  assert (HU : disk w !! U = None)
    by (destruct (disk w !! U) eqn:E; [by destruct HUnone | done]).
  assert (Htn : disk w !! target = None).
  { destruct (disk w !! target) as [n|] eqn:E; [| done].
    pose proof (is_dir_head _ _ _ E) as Hd'. rewrite Hst in Hd'.
    cbn [fst] in Hd'. congruence. }
  assert (HtU : target <> U)
    by (apply join_neq; [apply Hf | apply Hf]).
  assert (Hmk : os.makedirs (String.length U) U w =
                (Ok tt, set_disk (<[U := Dir]> (disk w)) w)).
  { destruct (String.length U) as [|n] eqn:El; [by destruct U |].
    rewrite makedirs_S, HsplitU.
    destruct Hd as (Hd1 & _). rewrite Hd1.
    unfold bind at 1. unfold get_disk at 1. cbv iota beta.
    assert (Hc : negb (str_empty head) && negb (str_empty dir)
                 && negb (known head (disk w)) = false).
    { unfold known. rewrite Hhead.
      destruct (str_empty head), (str_empty dir); reflexivity. }
    rewrite Hc. unfold bind at 1. unfold ret at 1. cbv iota beta.
    unfold os.mkdir. unfold_M. rewrite HU, Hne, HUdir. cbn [negb andb].
    rewrite (rstrip_id U He), HsplitU. cbn [fst].
    by rewrite (cannot_create_there _ _ _ Hne Hhead). }
  assert (Hx : tarfile.extract_member head (dir +:+ "/" +:+ file, RegEntry c) w
               = (Ok tt, set_disk (<[target := File c]> (<[U := Dir]> (disk w))) w)).
  { unfold tarfile.extract_member. cbn [fst snd]. rewrite Hj. fold U target.
    rewrite Hst. cbn [fst].
    unfold bind at 1. unfold get_disk at 1. cbv iota beta.
    assert (Hkn : negb (str_empty U) && negb (known U (disk w)) = true).
    { unfold known. rewrite Hne, HUdir. cbn [negb andb orb].
      by rewrite (bool_decide_eq_false_2 _ HUnone). }
    rewrite Hkn. unfold when. rewrite (bind_ok _ _ _ _ _ Hmk).
    rewrite (write_file_new target c); cbn [disk set_disk].
    - unfold set_disk. done.
    - by rewrite lookup_insert_ne.
    - unfold target. destruct (posixpath.join U file) eqn:E; [| done].
      apply join_empty in E as [E _]. by rewrite E in Hne.
    - rewrite Hst. cbn [fst]. apply is_dir_entry, lookup_insert_eq. }
  rewrite (bind_ok _ _ _ _ _ Hx). rewrite exists_remove. cbn [disk set_disk].
  assert (Hpt : target <> path) by (intros E; rewrite E in Htn; congruence).
  assert (HpU : U <> path) by (intros E; rewrite E in HU; congruence).
  rewrite !lookup_insert_ne by done. by rewrite Hp.
Qed.

Lemma extract_makes_directory_witness :
  _extract backups_client "out/nested.tar.gz"
    {| disk := {[ "out/nested.tar.gz" :=
                    File (TarGz 5 [("sub/inner.csv", RegEntry (Raw "1"))]) ]};
       bucket := ∅; net := None; sent := [] |}
  = (Ok "out/sub/inner.csv",
     {| disk := {[ "out/sub" := Dir; "out/sub/inner.csv" := File (Raw "1") ]};
        bucket := ∅; net := None; sent := [] |}).
Proof.
  rewrite (extract_makes_directory backups_client "out/nested.tar.gz" _ 5
             "sub" "inner.csv" (Raw "1")).
  - vm_compute. reflexivity.
  - reflexivity.
  - repeat split; done.
  - repeat split; done.
  - vm_compute. reflexivity.
Defined.
(** ** More on upload_file *)

Lemma upload_from_filename_run url filename w c :
  disk w !! filename = Some (File c) -> net w = None ->
  blob.upload_from_filename url filename w =
    (Ok tt, set_bucket (<[url := c]> (bucket w)) (log (Upload url) w)).
Proof.
  intros Hf Hn. unfold blob.upload_from_filename, blob.send, os.read_file.
  unfold_M. simpl. by rewrite Hf, Hn.
Qed.

Lemma upload_from_filename_unreadable url filename w :
  (forall c, disk w !! filename <> Some (File c)) ->
  blob.upload_from_filename url filename w =
    (Raise (match disk w !! filename with
            | Some Dir => IsADirectoryError filename
            | _ => ENOENT filename
            end), w).
Proof.
  intros Hn. unfold blob.upload_from_filename, blob.send, os.read_file.
  unfold_M. simpl.
  destruct (disk w !! filename) as [[c|]|] eqn:E; simpl; try done.
  by destruct (Hn c).
Qed.

Section MoreUpload.

Context {host : Host}.

(** The run of [upload_file] once the transfer unit is made, is a regular
    file, the service answers, and no directory stands at [file]. *)
Lemma upload_file_run self file archive w tu w1 c :
  make_transfer_unit self file archive w = (Ok tu, w1) ->
  disk w1 !! tu = Some (File c) ->
  net w1 = None ->
  disk w1 !! file <> Some Dir ->
  upload_file self file archive w =
    (Ok (remote_key self tu),
     set_disk (delete tu (delete file (disk w1)))
       (set_bucket (<[remote_key self tu := c]> (bucket w1))
          (log (Upload (remote_key self tu)) w1))).
Proof.
  intros Ht Hc Hn Hd. rewrite upload_file_steps.
  rewrite (bind_ok _ _ _ _ _ Ht).
  rewrite (bind_ok _ _ _ _ _ (upload_from_filename_run _ _ _ _ Hc Hn)).
  rewrite exists_remove. cbn [disk set_bucket log].
  destruct (disk w1 !! file) as [[c'|]|] eqn:Ef; [| done |];
    rewrite exists_remove; cbn [disk set_disk].
  - destruct (decide (tu = file)) as [-> | Hne].
    + rewrite lookup_delete_eq. unfold ret, set_disk. simpl.
      by rewrite (delete_id (delete file (disk w1)) file)
        by apply lookup_delete_eq.
    + rewrite lookup_delete_ne by done. rewrite Hc. done.
  - cbn [disk set_bucket log]. rewrite Hc. unfold ret, set_disk. simpl.
    by rewrite (delete_id (disk w1) file).
Qed.

Lemma upload_file_unreadable self file w :
  (forall c, disk w !! file <> Some (File c)) ->
  upload_file self file false w =
    (Raise (match disk w !! file with
            | Some Dir => IsADirectoryError file
            | _ => ENOENT file
            end), w).
Proof.
  intros Hn. rewrite upload_file_steps.
  unfold make_transfer_unit. rewrite (bind_ok _ _ w file w) by done.
  apply bind_raise. by apply upload_from_filename_unreadable.
Qed.

(** X10. Without [archive], on a regular file and with a service that
    answers, [upload_file] returns the key; the object under that key is
    now the file's content, whatever was there; one request was sent; and
    the file is gone from the disk, which is otherwise as it was. *)
Theorem upload_file_plain self file c w :
  disk w !! file = Some (File c) ->
  net w = None ->
  upload_file self file false w =
    (Ok (remote_key self file),
     {| disk := delete file (disk w);
        bucket := <[remote_key self file := c]> (bucket w);
        net := None;
        sent := sent w ++ [Upload (remote_key self file)] |}).
Proof.
  intros Hf Hn.
  rewrite (upload_file_run self file false w file w c); try done.
  - unfold set_disk, set_bucket, log. simpl. rewrite Hn.
    by rewrite (delete_id (delete file (disk w)) file) by apply lookup_delete_eq.
  - by rewrite Hf.
Qed.



(** X13. An upload without [archive] cannot be repeated: once it has
    returned, the file is gone, and the same call raises
    [FileNotFoundError] and changes nothing. *)
Theorem upload_file_twice self file w url w' :
  upload_file self file false w = (Ok url, w') ->
  upload_file self file false w' = (Raise (ENOENT file), w').
Proof.
  intros (w1 & c & _ & _ & _ & Hd)%upload_file_inv.
  assert (Hf : disk w' !! file = None).
  { rewrite Hd. simpl. apply lookup_delete_eq. }
  rewrite upload_file_unreadable; rewrite Hf; done.
Qed.

End MoreUpload.

Lemma upload_file_plain_witness :
  upload_file (host := plain_host) backups_client "report.csv" false report_world =
    (Ok (remote_key backups_client "report.csv"),
     {| disk := delete "report.csv" (disk report_world);
        bucket := <[remote_key backups_client "report.csv" := Raw "a,b"]>
                    (bucket report_world);
        net := None;
        sent := sent report_world ++ [Upload (remote_key backups_client "report.csv")] |}).
Proof.
  apply (upload_file_plain (host := plain_host) backups_client "report.csv"
           (Raw "a,b") report_world).
  - reflexivity.
  - reflexivity.
Defined.



Lemma upload_file_twice_witness :
  upload_file (host := plain_host) backups_client "report.csv" false
    (upload_file (host := plain_host) backups_client "report.csv" false
       report_world).2
  = (Raise (ENOENT "report.csv"),
     (upload_file (host := plain_host) backups_client "report.csv" false
        report_world).2).
Proof.
  apply (upload_file_twice (host := plain_host) backups_client "report.csv"
           report_world "backups/report.csv").
  vm_compute. reflexivity.
Defined.

(** ** The bucket *)

Lemma keeps_weaken {A} (R1 R2 : world -> world -> Prop) (m : M A) :
  (forall w w', R1 w w' -> R2 w w') -> keeps R1 m -> keeps R2 m.
Proof. intros H Hm w r w' E. apply H. by eapply Hm. Qed.

#[local] Instance bucket_same_refl : Reflexive bucket_same.
Proof. by intros w. Qed.

#[local] Instance bucket_same_trans : Transitive bucket_same.
Proof. unfold bucket_same. intros w1 w2 w3 ? ?. congruence. Qed.

#[local] Instance bucket_same_outside_refl S : Reflexive (bucket_same_outside S).
Proof. by intros w p. Qed.

#[local] Instance bucket_same_outside_trans S :
  Transitive (bucket_same_outside S).
Proof.
  intros w1 w2 w3 H12 H23 p Hp. rewrite H23 by done. by apply H12.
Qed.

Lemma remote_same_bucket w w' : remote_same w w' -> bucket_same w w'.
Proof. by intros (? & _). Qed.




Section Bucket.

Context {host : Host}.


(** X15. Whatever [download_file] returns or raises, the bucket is as it
    was. *)
Theorem download_file_keeps_bucket self url to_path extract :
  keeps bucket_same (download_file self url to_path extract).
Proof.
  assert (Hl : forall B (m : M B), keeps remote_same m -> keeps bucket_same m).
  { intros B m. apply keeps_weaken, remote_same_bucket. }
  unfold download_file.
  apply keeps_bind; try apply _; [apply Hl, keeps_remote_path_exists |].
  intros b.
  apply keeps_bind; try apply _;
    [apply keeps_when; [apply _ | apply Hl, keeps_remote_mkdir] |]. intros _.
  destruct (posixpath.split url) as [head file].
  apply keeps_bind; try apply _.
  - apply keeps_try_except; try apply _.
    + unfold blob.download_to_filename.
      apply keeps_bind; try apply _; [apply Hl, keeps_remote_write_file |].
      intros _. apply keeps_try_except; try apply _.
      * apply keeps_bind; try apply _;
          [| intros c; apply Hl, keeps_remote_write_file].
        unfold blob.fetch, blob.send. intros w0 r0 w0'. simpl.
        destruct (net w0); [by intros [= <- <-] |].
        by destruct (bucket w0 !! url); intros [= <- <-].
      * intros e k. destruct (blob.is_NotFound e && sdk_removes_partial);
          [| done]. intros [= <-].
        apply keeps_bind; try apply _; [apply Hl, keeps_remote_remove |].
        intros _. by apply keeps_raise.
    + intros e k. destruct (blob.is_NotFound e); [| done]. intros [= <-].
      by apply keeps_raise.
  - intros _. apply keeps_bind; try apply _; [| intros p; by apply keeps_ret].
    destruct extract; [apply Hl, keeps_remote_extract | by apply keeps_ret].
Qed.

End Bucket.
(** ** More on download_file *)




Section MoreDownload.

Context {host : Host}.









End MoreDownload.





(** ** The operations together *)



Lemma lookup_delete_not_dir (d : gmap string node) (k p : string) :
  d !! p <> Some Dir -> delete k d !! p <> Some Dir.
Proof.
  intros H. destruct (decide (k = p)) as [-> | Hne].
  - by rewrite lookup_delete_eq.
  - by rewrite lookup_delete_ne.
Qed.

Section Together.

Context {host : Host}.



(** X22. A file uploaded without [archive] and then deleted from the bucket
    under the key that was returned is nowhere any more: it is not in the
    bucket and not on the disk. *)
Theorem upload_then_delete self file c w :
  disk w !! file = Some (File c) ->
  net w = None ->
  exists w',
    (url <- upload_file self file false ;; delete_file self url) w = (Ok tt, w') /\
    bucket w' !! remote_key self file = None /\
    disk w' !! file = None.
Proof.
  intros Hf Hn.
  assert (Hu := upload_file_run self file false w file w c eq_refl Hf Hn).
  rewrite (bind_ok _ _ _ _ _ (Hu ltac:(by rewrite Hf))). clear Hu.
  unfold delete_file, blob.delete, blob.send. simpl.
  rewrite Hn, lookup_insert_eq. eexists. split; [done |]. simpl.
  split; by rewrite lookup_delete_eq.
Qed.

End Together.

(** X23. [delete_file] cannot be repeated: once a key is deleted, deleting
    it again raises the SDK's [NotFound]. *)
Theorem delete_file_twice self url w c :
  net w = None ->
  bucket w !! url = Some c ->
  (delete_file self url ;;; delete_file self url) w =
    (Raise (blob.no_such_object url),
     {| disk := disk w; bucket := delete url (bucket w); net := None;
        sent := sent w ++ [Delete url; Delete url] |}).
Proof.
  intros Hn Hb. unfold delete_file, blob.delete, blob.send, bind. simpl.
  rewrite Hn, Hb. simpl. rewrite Hn, lookup_delete_eq.
  unfold set_bucket, log. simpl. by rewrite Hn, <- app_assoc.
Qed.



Lemma upload_then_delete_witness :
  exists w',
    (url <- upload_file (host := plain_host) backups_client "report.csv" false ;;
     delete_file backups_client url) report_world = (Ok tt, w') /\
    bucket w' !! remote_key backups_client "report.csv" = None /\
    disk w' !! "report.csv" = None.
Proof.
  apply (upload_then_delete (host := plain_host) backups_client "report.csv"
           (Raw "a,b") report_world).
  - reflexivity.
  - reflexivity.
Defined.

Lemma delete_file_twice_witness :
  (delete_file backups_client "backups/report.csv" ;;;
   delete_file backups_client "backups/report.csv") stored_world =
    (Raise (blob.no_such_object "backups/report.csv"),
     {| disk := disk stored_world;
        bucket := delete "backups/report.csv" (bucket stored_world);
        net := None;
        sent := sent stored_world
                ++ [Delete "backups/report.csv"; Delete "backups/report.csv"] |}).
Proof.
  apply (delete_file_twice backups_client "backups/report.csv" stored_world
           (Raw "a,b")).
  - reflexivity.
  - vm_compute. reflexivity.
Defined.

(** ** A directory given to upload_file *)

Section Directory.

Context {host : Host}.



End Directory.


Lemma helpers_keep_remote_witness :
  remote_same report_world
    (_archive_file (host := plain_host) backups_client "report.csv" report_world).2.
Proof.
  apply (proj1 (helpers_keep_remote (host := plain_host) backups_client
                  "report.csv") report_world
           (_archive_file (host := plain_host) backups_client "report.csv"
              report_world).1).
  apply surjective_pairing.
Defined.

Lemma archive_file_writes_archive_only_witness :
  disk (_archive_file (host := plain_host) backups_client "report.csv"
          report_world).2 !! "report.csv"
  = disk report_world !! "report.csv".
Proof.
  apply (archive_file_writes_archive_only (host := plain_host) backups_client
           "report.csv" report_world
           (_archive_file (host := plain_host) backups_client "report.csv"
              report_world).1).
  - apply surjective_pairing.
  - vm_compute. discriminate.
Defined.


Lemma download_file_keeps_bucket_witness :
  bucket (download_file (host := plain_host) backups_client "backups/report.csv"
            "out" false stored_world).2 = bucket stored_world.
Proof.
  apply (download_file_keeps_bucket (host := plain_host) backups_client
           "backups/report.csv" "out" false stored_world
           (download_file (host := plain_host) backups_client
              "backups/report.csv" "out" false stored_world).1).
  apply surjective_pairing.
Defined.
